(** * Clip-Captioner: word-level caption layout of [video_captioner.py]

    A shallow embedding of the caption pipeline of [video_captioner.py]
    (transcript flattening, per-word clip layout, text-image drawing and the
    top-level driver) together with the properties its specification states.

    Python values are modelled as follows.
    - [int] is [Z]; [float] is IEEE 754 binary64, taken from the executable
      specification [SpecFloat] of the standard library (precision 53,
      [emax] 1024), so every float operation below computes.
    - [str] is [string].  [str.upper] and [str.strip] are modelled on 7-bit
      ASCII text, where they are exact; a statement that depends on what
      they return carries the hypothesis [PyStr.isascii] on the text.
    - a raised exception is a value of [exn] carried by [result];
      [print] appends a line to the list of the lines the script prints,
      carried by [IO].  What a library writes on the standard output by
      itself is not part of that list.
    - the dictionaries of the transcript have fixed keys and are records; a
      key that may be absent (["words"]) is an [option] field. *)

From Stdlib Require Import ZArith QArith Qround List String Ascii Bool Lia.
From Stdlib Require Import Floats.SpecFloat.
From Stdlib Require DecimalString.
Import ListNotations.

Local Open Scope string_scope.
Local Open Scope list_scope.
Local Open Scope Z_scope.

(** ** Exceptions *)

(** The exception classes the program can meet.  [KeyboardInterrupt] is the
    one among them that derives from [BaseException] without deriving from
    [Exception]. *)
Inductive exn : Type :=
| FileNotFoundError (msg : string)
| OverflowError (msg : string)
| ValueError (msg : string)
| ZeroDivisionError (msg : string)
| RuntimeError (msg : string)
| KeyboardInterrupt.

Inductive result (A : Type) : Type :=
| Ok (a : A)
| Raise (e : exn).
Arguments Ok {A} a.
Arguments Raise {A} e.

Definition bind {A B : Type} (r : result A) (k : A -> result B) : result B :=
  match r with
  | Ok a => k a
  | Raise e => Raise e
  end.

Declare Scope result_scope.
Delimit Scope result_scope with result.
Notation "x <- r ;; k" := (bind r (fun x => k))
  (at level 61, r at next level, right associativity) : result_scope.

(** ** Python floats (binary64) *)

Module PyFloat.

Definition prec : Z := 53.
Definition emax : Z := 1024.

Definition float : Type := spec_float.

Definition add : float -> float -> float := SFadd prec emax.
Definition sub : float -> float -> float := SFsub prec emax.
Definition mul : float -> float -> float := SFmul prec emax.
Definition div : float -> float -> float := SFdiv prec emax.
Definition ltb : float -> float -> bool := SFltb.
Definition leb : float -> float -> bool := SFleb.
Definition eqb : float -> float -> bool := SFeqb.

Definition is_zero (x : float) : bool :=
  match x with S754_zero _ => true | _ => false end.

Definition sign (x : float) : bool :=
  match x with
  | S754_zero s | S754_infinity s | S754_finite s _ _ => s
  | S754_nan => false
  end.

(** [copysign(0.0, x)] *)
Definition zero_like (x : float) : float := S754_zero (sign x).

(** The nearest float of an integer, ties to even; infinite past the
    largest finite float. *)
Definition round_int (n : Z) : float := binary_normalize prec emax n 0 false.

(** [float(n)] for an [int] [n], as in the mixed arithmetic [n * 0.5] and
    [n // 9.6]: Python raises when [n] is out of the float range. *)
Definition of_int (n : Z) : result float :=
  match round_int n with
  | S754_infinity _ => Raise (OverflowError "int too large to convert to float")
  | x => Ok x
  end.

(** A decimal literal [n / 10^k] denotes the float nearest to it, which
    is what the correctly rounded division of [n] by [10^k] yields as long
    as both are exactly representable. *)
Definition decimal (n : Z) (k : nat) : float :=
  div (round_int n) (round_int (10 ^ Z.of_nat k)).

(** The value of a finite float [x] is [fnum x * 2 ^ fexpo x]. *)
Definition fnum (x : float) : Z :=
  match x with
  | S754_finite s m _ => cond_Zopp s (Zpos m)
  | _ => 0
  end.

Definition fexpo (x : float) : Z :=
  match x with
  | S754_finite _ _ e => e
  | _ => 0
  end.

(** [int(x)]: truncation toward zero; an error on infinities and NaN. *)
Definition to_int (x : float) : result Z :=
  match x with
  | S754_zero _ => Ok 0
  | S754_finite s m e =>
      Ok (cond_Zopp s (if 0 <=? e then Z.shiftl (Zpos m) e
                       else Z.shiftr (Zpos m) (- e)))
  | S754_infinity _ => Raise (OverflowError "cannot convert float infinity to integer")
  | S754_nan => Raise (ValueError "cannot convert float NaN to integer")
  end.

(** C's [floor]. *)
Definition floor (x : float) : float :=
  match x with
  | S754_finite s m e =>
      if 0 <=? e then x
      else
        match Z.shiftr (cond_Zopp s (Zpos m)) (- e) with
        | Z0 => S754_zero s
        | n => round_int n
        end
  | _ => x
  end.

(** C's [fmod] on finite operands with a non-zero divisor: the exact
    remainder of the truncated quotient, with the sign of the dividend. *)
Definition fmod (x y : float) : float :=
  match x, y with
  | S754_nan, _ | _, S754_nan => S754_nan
  | S754_infinity _, _ => S754_nan
  | _, S754_zero _ => S754_nan
  | _, S754_infinity _ => x
  | S754_zero _, _ => x
  | S754_finite sx mx ex, S754_finite _ my ey =>
      let e := Z.min ex ey in
      let r := Z.rem (Z.shiftl (Zpos mx) (ex - e)) (Z.shiftl (Zpos my) (ey - e)) in
      match r with
      | Z0 => S754_zero sx
      | _ => binary_normalize prec emax (cond_Zopp sx r) e false
      end
  end.

Definition one : float := Eval vm_compute in round_int 1.
Definition half : float := Eval vm_compute in decimal 5 1.

(** [x // y] on floats: CPython's [float_floor_div], which computes the
    quotient from [fmod] and snaps it to an integral value. *)
Definition floordiv (vx wx : float) : result float :=
  if is_zero wx then Raise (ZeroDivisionError "float floor division by zero")
  else
    let mod_ := fmod vx wx in
    let div0 := div (sub vx mod_) wx in
    let div1 :=
      if is_zero mod_ then div0
      else if negb (Bool.eqb (ltb wx (S754_zero false)) (ltb mod_ (S754_zero false)))
           then sub div0 one
           else div0 in
    if is_zero div1 then Ok (zero_like (div vx wx))
    else
      let fl := floor div1 in
      if ltb half (sub div1 fl) then Ok (add fl one) else Ok fl.

End PyFloat.

(** ** Python strings (ASCII text) *)

Module PyStr.

(** [s.isascii()]: every character is below 128. *)
Fixpoint isascii (s : string) : bool :=
  match s with
  | EmptyString => true
  | String c s' => (nat_of_ascii c <? 128)%nat && isascii s'
  end.

(** [c.isspace()] on ASCII: tab, line feed, vertical tab, form feed,
    carriage return, the four separators 28..31 and the space. *)
Definition is_space (c : ascii) : bool :=
  let n := nat_of_ascii c in
  ((9 <=? n) && (n <=? 13) || (28 <=? n) && (n <=? 32))%nat.

Definition upper_char (c : ascii) : ascii :=
  let n := nat_of_ascii c in
  if ((97 <=? n) && (n <=? 122))%nat then ascii_of_nat (n - 32) else c.

(** [s.upper()] for an ASCII text [s]: the letters [a] to [z] become [A] to
    [Z].  (On other text Python maps more characters than these.) *)
Fixpoint upper (s : string) : string :=
  match s with
  | EmptyString => EmptyString
  | String c s' => String (upper_char c) (upper s')
  end.

(** [s.lstrip()] for an ASCII text [s]. *)
Fixpoint lstrip (s : string) : string :=
  match s with
  | EmptyString => EmptyString
  | String c s' => if is_space c then lstrip s' else s
  end.

(** [s.rstrip()] for an ASCII text [s]. *)
Fixpoint rstrip (s : string) : string :=
  match s with
  | EmptyString => EmptyString
  | String c s' =>
      match rstrip s' with
      | EmptyString => if is_space c then EmptyString else String c EmptyString
      | r => String c r
      end
  end.

(** [s.strip()] for an ASCII text [s].  (On other text Python also removes
    the white space past ASCII, such as the no-break space.) *)
Definition strip (s : string) : string := rstrip (lstrip s).

(** [s in l] for a list [l] of strings: equality with some element. *)
Fixpoint contains (l : list string) (s : string) : bool :=
  match l with
  | [] => false
  | x :: l' => if String.eqb s x then true else contains l' s
  end.

(** [str(n)] for a length [n]. *)
Definition of_nat (n : nat) : string :=
  DecimalString.NilZero.string_of_uint (Nat.to_uint n).

(** The first and the last character of a string, when it has one. *)
Definition first (s : string) : option ascii :=
  match s with
  | EmptyString => None
  | String c _ => Some c
  end.

Fixpoint last (s : string) : option ascii :=
  match s with
  | EmptyString => None
  | String c EmptyString => Some c
  | String _ s' => last s'
  end.

Definition space_at (o : option ascii) : bool :=
  match o with
  | Some c => is_space c
  | None => false
  end.

End PyStr.

Definition float : Type := PyFloat.float.

(** ** The transcript *)

(** One entry of a segment's ["words"] list, as the recognizer returns it. *)
Record RawWord : Type := mkRawWord {
  word : string;
  raw_start : float;
  raw_end : float
}.

(** A segment of the recognizer's result.  Only the key ["words"] is read,
    and it may be absent. *)
Record Segment : Type := mkSegment {
  seg_words : option (list RawWord)
}.

(** The dictionary [{"text": .., "start": .., "end": ..}] built for each
    word. *)
Record WordTiming : Type := mkWord {
  text : string;
  start : float;
  end_ : float
}.

(** The body of the inner loop of [transcribe_with_word_timestamps]. *)
Definition append_word (word_segments : list WordTiming) (w : RawWord)
  : list WordTiming :=
  word_segments ++ [mkWord (PyStr.strip (word w)) (raw_start w) (raw_end w)].

(** The body of its outer loop. *)
Definition append_segment (word_segments : list WordTiming) (segment : Segment)
  : list WordTiming :=
  match seg_words segment with
  | Some ws => fold_left append_word ws word_segments
  | None => word_segments
  end.

(** The two loops of [transcribe_with_word_timestamps] over
    [result["segments"]]. *)
Definition word_segments_of (segments : list Segment) : list WordTiming :=
  fold_left append_segment segments [].

(** ** Text images *)

Definition RGBA : Type := (Z * Z * Z * Z)%type.

(** The text rasterizer (PIL).  [new_image mode size] is what [Image.new]
    does before it returns: it checks the size and allocates the pixels, and
    raises for a size it refuses or cannot allocate.  Loading a font by file
    name and size fails ([None]) when the font is not installed; [textbbox]
    measures a text. *)
Class Rasterizer : Type := {
  new_image : string -> Z * Z -> result unit;
  font : Type;
  truetype : string -> Z -> option font;
  load_default : font;
  textbbox : Z * Z -> string -> font -> Z * Z * Z * Z
}.

Section TextImage.
Context {R : Rasterizer}.

(** One call of [draw.text]. *)
Record TextDraw : Type := mkDraw {
  draw_xy : Z * Z;
  draw_text : string;
  draw_font : font;
  draw_fill : RGBA
}.

(** An image, as the calls that made it: [Image.new] and the texts
    drawn on it, the oldest first. *)
Record Image : Type := mkImage {
  im_mode : string;
  im_size : Z * Z;
  im_color : RGBA;
  im_draws : list TextDraw
}.

Definition Image_new (mode : string) (size : Z * Z) (color : RGBA)
  : result Image :=
  (_ <- new_image mode size ;; Ok (mkImage mode size color []))%result.

Definition Draw_text (img : Image) (xy : Z * Z) (t : string) (f : font)
    (fill : RGBA) : Image :=
  mkImage (im_mode img) (im_size img) (im_color img)
          (im_draws img ++ [mkDraw xy t f fill]).

(** [range(lo, hi)] *)
Definition range (lo hi : Z) : list Z :=
  map (fun k => lo + Z.of_nat k) (seq 0 (Z.to_nat (hi - lo))).

Definition bold_fonts : list string :=
  ["impact.ttf"; "arial-bold.ttf"; "arialbd.ttf"; "calibrib.ttf"].

(** The loop over [bold_fonts]: the first font that loads. *)
Fixpoint first_font (names : list string) (font_size : Z) : option font :=
  match names with
  | [] => None
  | font_name :: rest =>
      match truetype font_name font_size with
      | Some f => Some f
      | None => first_font rest font_size
      end
  end.

Definition load_font (font_size : Z) : font :=
  match first_font bold_fonts font_size with
  | Some f => f
  | None =>
      match truetype "arial.ttf" font_size with
      | Some f => f
      | None => load_default
      end
  end.

Definition stroke_width : Z := 4.

(** The body of the two nested stroke loops. *)
Definition stroke_step (x y : Z) (t : string) (f : font) (dx : Z)
    (img : Image) (dy : Z) : Image :=
  if negb (dx =? 0) || negb (dy =? 0)
  then Draw_text img (x + dx, y + dy) t f (0, 0, 0, 255)
  else img.

Definition stroke_row (x y : Z) (t : string) (f : font) (img : Image)
    (dx : Z) : Image :=
  fold_left (stroke_step x y t f dx)
            (range (- stroke_width) (stroke_width + 1)) img.

Definition create_text_image (text0 : string) (font_size width height : Z)
    (is_highlight : bool) : result Image :=
  (img <- Image_new "RGBA" (width, height) (0, 0, 0, 0) ;;
   let t := PyStr.upper text0 in
   let f := load_font font_size in
   let '(b0, b1, b2, b3) := textbbox (0, 0) t f in
   let text_width := b2 - b0 in
   let text_height := b3 - b1 in
   let x := (width - text_width) / 2 in
   let y := (height - text_height) / 2 in
   let img := fold_left (stroke_row x y t f)
                        (range (- stroke_width) (stroke_width + 1)) img in
   let text_color : RGBA :=
     if is_highlight then (255, 255, 0, 255) else (250, 253, 7, 255) in
   Ok (Draw_text img (x, y) t f text_color))%result.

(** ** Caption clips *)

Inductive effect : Type :=
| CrossFadeIn (d : float)
| CrossFadeOut (d : float).

(** moviepy's [ImageClip], as far as the program sets it. *)
Record ImageClip : Type := mkClip {
  clip_img : Image;
  clip_transparent : bool;
  clip_start : float;
  clip_duration : option float;
  clip_end : option float;
  clip_pos : Z * Z;
  clip_effects : list effect
}.

Definition zero : float := S754_zero false.

Definition ImageClip_new (img : Image) (transparent : bool) : ImageClip :=
  mkClip img transparent zero None None (0, 0) [].

Definition set_start (c : ImageClip) (t : float) : ImageClip :=
  mkClip (clip_img c) (clip_transparent c) t (clip_duration c)
         (match clip_duration c with
          | Some d => Some (PyFloat.add t d)
          | None => clip_end c
          end)
         (clip_pos c) (clip_effects c).

Definition set_duration (c : ImageClip) (d : float) : ImageClip :=
  mkClip (clip_img c) (clip_transparent c) (clip_start c) (Some d)
         (Some (PyFloat.add (clip_start c) d))
         (clip_pos c) (clip_effects c).

Definition set_position (c : ImageClip) (pos : Z * Z) : ImageClip :=
  mkClip (clip_img c) (clip_transparent c) (clip_start c) (clip_duration c)
         (clip_end c) pos (clip_effects c).

Definition crossfadein (c : ImageClip) (d : float) : ImageClip :=
  mkClip (clip_img c) (clip_transparent c) (clip_start c) (clip_duration c)
         (clip_end c) (clip_pos c) (clip_effects c ++ [CrossFadeIn d]).

(** The local variables of [create_word_caption_clips] that its loops
    update. *)
Record locals : Type := mkLocals {
  caption_clips : list ImageClip;
  lines : list (list WordTiming);
  current_line : list WordTiming
}.

(** [min(int(width // 9.6), 125)] *)
Definition font_size_of (width : Z) : result Z :=
  (w <- PyFloat.of_int width ;;
   q <- PyFloat.floordiv w (PyFloat.decimal 96 1) ;;
   n <- PyFloat.to_int q ;;
   Ok (Z.min n 125))%result.

(** [int(height * 0.5)] *)
Definition caption_y_of (height : Z) : result Z :=
  (h <- PyFloat.of_int height ;;
   PyFloat.to_int (PyFloat.mul h (PyFloat.decimal 5 1)))%result.

(** [int(font_size * 1.5)] *)
Definition image_height_of (font_size : Z) : result Z :=
  (f <- PyFloat.of_int font_size ;;
   PyFloat.to_int (PyFloat.mul f (PyFloat.decimal 15 1)))%result.

Definition words_per_line : Z := 2.

(** The body of the grouping loop, for the word [word_data] at index [i]
    of [n] words. *)
Definition group_step (n : nat) (st : locals) (iw : nat * WordTiming)
  : locals :=
  let '(i, word_data) := iw in
  let line := current_line st ++ [word_data] in
  if (words_per_line <=? Z.of_nat (List.length line))
     || (Z.of_nat i =? Z.of_nat n - 1)
  then mkLocals (caption_clips st) (lines st ++ [line]) []
  else mkLocals (caption_clips st) (lines st) line.

Definition enumerate {A : Type} (l : list A) : list (nat * A) :=
  combine (seq 0 (List.length l)) l.

Definition group_loop (transcript_segments : list WordTiming) (st : locals)
  : locals :=
  fold_left (group_step (List.length transcript_segments))
            (enumerate transcript_segments) st.

(** [word_data["text"].upper().strip() in highlight_words] *)
Definition is_highlight_of (highlight_words : list string)
    (word_data : WordTiming) : bool :=
  PyStr.contains highlight_words (PyStr.strip (PyStr.upper (text word_data))).

(** The body of the clip loop. *)
Definition clip_step (width font_size caption_y : Z)
    (highlight_words : list string) (st : locals) (word_data : WordTiming)
  : result locals :=
  (let is_highlight := is_highlight_of highlight_words word_data in
   height <- image_height_of font_size ;;
   text_img <-
     create_text_image (text word_data) font_size width height is_highlight ;;
   let img_clip := ImageClip_new text_img true in
   let img_clip :=
     set_duration (set_start img_clip (start word_data))
                  (PyFloat.sub (end_ word_data) (start word_data)) in
   let img_clip := set_position img_clip (0, caption_y) in
   let img_clip := crossfadein img_clip (PyFloat.decimal 1 1) in
   Ok (mkLocals (caption_clips st ++ [img_clip]) (lines st) (current_line st))
  )%result.

(** A [for] loop whose body may raise. *)
Fixpoint for_each {A S : Type} (body : S -> A -> result S) (l : list A)
    (st : S) : result S :=
  match l with
  | [] => Ok st
  | a :: l' => (st' <- body st a ;; for_each body l' st')%result
  end.

Definition create_word_caption_clips (transcript_segments : list WordTiming)
    (video_size : Z * Z) (highlight_words : option (list string))
  : result (list ImageClip) :=
  (let st := mkLocals [] [] [] in
   let '(width, height) := video_size in
   font_size <- font_size_of width ;;
   caption_y <- caption_y_of height ;;
   let highlight_words :=
     match highlight_words with Some l => l | None => [] end in
   let highlight_words := map PyStr.upper highlight_words in
   let st := group_loop transcript_segments st in
   st <- for_each (clip_step width font_size caption_y highlight_words)
                  transcript_segments st ;;
   Ok (caption_clips st))%result.

(** The same function with the grouping loop left out. *)
Definition create_word_caption_clips_ungrouped
    (transcript_segments : list WordTiming)
    (video_size : Z * Z) (highlight_words : option (list string))
  : result (list ImageClip) :=
  (let st := mkLocals [] [] [] in
   let '(width, height) := video_size in
   font_size <- font_size_of width ;;
   caption_y <- caption_y_of height ;;
   let highlight_words :=
     match highlight_words with Some l => l | None => [] end in
   let highlight_words := map PyStr.upper highlight_words in
   st <- for_each (clip_step width font_size caption_y highlight_words)
                  transcript_segments st ;;
   Ok (caption_clips st))%result.

End TextImage.

(** ** The driver *)

(** A computation that prints lines and may raise.  The list holds the lines
    of the script's own calls of [print], the oldest first; what a library
    writes on the standard output while it runs is not recorded. *)
Definition IO (A : Type) : Type := list string -> list string * result A.

Definition io_ret {A : Type} (a : A) : IO A := fun out => (out, Ok a).

Definition io_bind {A B : Type} (m : IO A) (k : A -> IO B) : IO B :=
  fun out =>
    match m out with
    | (out', Ok a) => k a out'
    | (out', Raise e) => (out', Raise e)
    end.

Definition print (line : string) : IO unit := fun out => (out ++ [line], Ok tt).

Definition lift {A : Type} (r : result A) : IO A := fun out => (out, r).

Declare Scope io_scope.
Delimit Scope io_scope with io.
Notation "x <- m ;; k" := (io_bind m (fun x => k))
  (at level 61, m at next level, right associativity) : io_scope.
Notation "m ;; k" := (io_bind m (fun _ => k))
  (at level 61, right associativity) : io_scope.

(** [isinstance(e, Exception)] *)
Definition is_Exception (e : exn) : bool :=
  match e with
  | KeyboardInterrupt => false
  | _ => true
  end.

(** [str(e)] *)
Definition str_of_exn (e : exn) : string :=
  match e with
  | FileNotFoundError msg | OverflowError msg | ValueError msg
  | ZeroDivisionError msg | RuntimeError msg => msg
  | KeyboardInterrupt => ""
  end.

(** The speech recognizer (whisper) and the video library (moviepy): each
    call may raise.  A video is read for its size and frame rate; [close],
    which only releases the reader, is left out. *)
Class Collaborators {R : Rasterizer} : Type := {
  model : Type;
  load_model : string -> result model;
  transcribe_segments : model -> string -> result (list Segment);
  video : Type;
  VideoFileClip : string -> result video;
  video_w : video -> Z;
  video_h : video -> Z;
  video_fps : video -> float;
  write_videofile :
    video * list ImageClip -> string -> string -> string -> string -> bool ->
    float -> result unit
}.

Section Driver.
Context {R : Rasterizer} {C : Collaborators}.

Definition transcribe_with_word_timestamps (video_path : string)
  : IO (list WordTiming) :=
  (print "Loading Whisper model..." ;;
   m <- lift (load_model "base") ;;
   print "Transcribing audio..." ;;
   segments <- lift (transcribe_segments m video_path) ;;
   let word_segments := word_segments_of segments in
   print ("Extracted " ++ PyStr.of_nat (List.length word_segments)
          ++ " words with timestamps")%string ;;
   io_ret word_segments)%io.

Definition compose_final_video_with_captions (video_path : string)
    (clips : list ImageClip) (output_path : string) : IO unit :=
  (print "Loading video..." ;;
   v <- lift (VideoFileClip video_path) ;;
   print "Compositing captions..." ;;
   let final_video := (v, clips) in
   print ("Rendering final video to " ++ output_path ++ "...")%string ;;
   lift (write_videofile final_video output_path "libx264" "aac"
                         "temp-audio.m4a" true (video_fps v)) ;;
   print "Video rendering complete!")%io.

Definition input_video : string := "stitched_output.mp4".
Definition output_video : string := "captioned_output.mp4".

Definition main_highlight_words : list string :=
  ["amazing"; "incredible"; "wow"; "perfect"; "awesome"; "fantastic"].

(** The [try] block of [main]. *)
Definition main_body : IO unit :=
  (word_segments <- transcribe_with_word_timestamps input_video ;;
   temp_video <- lift (VideoFileClip input_video) ;;
   let video_size := (video_w temp_video, video_h temp_video) in
   clips <- lift (create_word_caption_clips word_segments video_size
                                            (Some main_highlight_words)) ;;
   compose_final_video_with_captions input_video clips output_video ;;
   print ("Successfully created captioned video: " ++ output_video)%string
  )%io.

Definition not_found_message : string :=
  ("Error: Input video '" ++ input_video ++ "' not found!")%string.

Definition error_message (e : exn) : string :=
  ("Error: " ++ str_of_exn e)%string.

(** [main]: the [try] block with its two [except] clauses. *)
Definition main : IO unit :=
  fun out =>
    match main_body out with
    | (out', Ok _) => (out', Ok tt)
    | (out', Raise (FileNotFoundError _)) => print not_found_message out'
    | (out', Raise e) =>
        if is_Exception e then print (error_message e) out'
        else (out', Raise e)
    end.

(** Running the script: the lines its calls of [print] wrote and the exit
    status of the process: [0] when [main] returns; [130] when a
    [KeyboardInterrupt] escapes, since the interpreter then ends on the
    signal SIGINT, which a shell reports as 128 + 2; [1] when another
    exception escapes. *)
Definition run_script : list string * Z :=
  match main [] with
  | (out, Ok _) => (out, 0)
  | (out, Raise KeyboardInterrupt) => (out, 130)
  | (out, Raise _) => (out, 1)
  end.

End Driver.

(** ** Concrete collaborators for the examples *)

(** A rasterizer that makes an image of every size from [0] to [2 ^ 31 - 1]
    in each direction and refuses the others, with no font installed but
    the default one, whose glyphs are [10] wide and [20] high. *)
Definition plain_rasterizer : Rasterizer := {|
  new_image := fun _ size =>
    if (fst size <? 0) || (snd size <? 0)
    then Raise (ValueError "Width and height must be >= 0")
    else if (2 ^ 31 <=? fst size) || (2 ^ 31 <=? snd size)
         then Raise (OverflowError "signed integer is greater than maximum")
         else Ok tt;
  font := unit;
  truetype := fun _ _ => None;
  load_default := tt;
  textbbox := fun _ t _ => (0, 0, 10 * Z.of_nat (String.length t), 20)
|}.

(** A recognizer that fails with [e] on every audio, over a video of
    [1080 x 1920]. *)
Definition failing_recognizer (e : exn) : @Collaborators plain_rasterizer := {|
  model := unit;
  load_model := fun _ => Ok tt;
  transcribe_segments := fun _ _ => Raise e;
  video := unit;
  VideoFileClip := fun _ => Ok tt;
  video_w := fun _ => 1080;
  video_h := fun _ => 1920;
  video_fps := fun _ => PyFloat.decimal 30 0;
  write_videofile := fun _ _ _ _ _ _ _ => Ok tt
|}.


(** ** Definitions used by the statements *)

(** [check_from P lo n]: [P] holds on the [n] integers from [lo] on. *)
Definition check_from (P : Z -> bool) (lo : Z) (n : positive) : bool :=
  snd (Pos.iter (fun zb : Z * bool => (fst zb + 1, snd zb && P (fst zb)))
                (lo, true) n).

Definition result_eqb (r : result Z) (z : Z) : bool :=
  match r with
  | Ok a => a =? z
  | Raise _ => false
  end.

(** The float of the literal [9.6]: [M96 * 2 ^ -49]. *)
Definition M96 : positive := 5404319552844595.
Definition y96 : float := S754_finite false M96 (-49).

(** The floats Python computes with are the canonical binary64 values. *)
Definition valid (x : float) : bool := valid_binary PyFloat.prec PyFloat.emax x.

Definition valid_word (w : WordTiming) : bool :=
  valid (start w) && valid (end_ w).

(** A float that is a number and not an infinity. *)
Definition finite (x : float) : bool :=
  match x with
  | S754_zero _ | S754_finite _ _ _ => true
  | S754_infinity _ | S754_nan => false
  end.

(** A word whose two times are finite numbers. *)
Definition finite_word (w : WordTiming) : bool :=
  valid_word w && finite (start w) && finite (end_ w).




(** A segment's words as the specification describes them: the trimmed
    words of a segment that has word-level detail, nothing otherwise. *)
Definition trimmed (w : RawWord) : WordTiming :=
  mkWord (PyStr.strip (word w)) (raw_start w) (raw_end w).

Definition segment_words (segment : Segment) : list WordTiming :=
  match seg_words segment with
  | Some ws => map trimmed ws
  | None => []
  end.

(** The offsets the outline keeps: all but the centre. *)
Definition keep (d : Z * Z) : bool := negb ((fst d =? 0) && (snd d =? 0)).

(** The offsets of the outline: every [(dx, dy)] of the square of radius
    [4] but the centre, row by row. *)
Definition stroke_offsets : list (Z * Z) :=
  filter keep (list_prod (range (-4) 5) (range (-4) 5)).

Definition black : RGBA := (0, 0, 0, 255).
Definition bright_yellow : RGBA := (255, 255, 0, 255).
Definition normal_yellow : RGBA := (250, 253, 7, 255).

(** The mantissa of the float of an integer of at most 53 bits: the integer
    shifted to 53 bits. *)
Definition mant53 (p : positive) : positive :=
  match (53 - Zpos (digits2_pos p))%Z with
  | Zpos k => Pos.iter xO p k
  | _ => p
  end.

(** The highlight list as the layout compares against it: [[]] for [None],
    every entry uppercased. *)
Definition upper_entries (highlight_words : option (list string)) : list string :=
  map PyStr.upper (match highlight_words with Some l => l | None => [] end).

(** A list cut into lines of two consecutive elements; a last element
    left alone still makes a line. *)
Fixpoint pairs {A : Type} (l : list A) : list (list A) :=
  match l with
  | [] => []
  | [a] => [[a]]
  | a :: b :: l' => [a; b] :: pairs l'
  end.

(** The transcript of the end-to-end scenario: "hello" from 0.0 to 0.5 and
    "world" from 0.5 to 1.2. *)
Definition hello_world : list WordTiming :=
  [mkWord "hello" (PyFloat.decimal 0 0) (PyFloat.decimal 5 1);
   mkWord "world" (PyFloat.decimal 5 1) (PyFloat.decimal 12 1)].

(** The line [main] prints for an exception [e] it catches. *)
Definition caught_message (e : exn) : string :=
  match e with
  | FileNotFoundError _ => not_found_message
  | _ => error_message e
  end.

(** A highlight entry that starts or ends with white space. *)
Definition padded (entry : string) : bool :=
  PyStr.space_at (PyStr.first entry) || PyStr.space_at (PyStr.last entry).

Definition map_result {A B : Type} (g : A -> B) (r : result A) : result B :=
  match r with
  | Ok a => Ok (g a)
  | Raise e => Raise e
  end.

Section Elements.
Context {R : Rasterizer}.

(** Where [create_text_image] puts the text: centred on the canvas by its
    measured bounding box. *)
Definition text_origin (text0 : string) (font_size width height : Z) : Z * Z :=
  let '(b0, b1, b2, b3) :=
    textbbox (0, 0) (PyStr.upper text0) (load_font font_size) in
  ((width - (b2 - b0)) / 2, (height - (b3 - b1)) / 2).

(** One text of the outline, at the offset [d] from the origin. *)
Definition outline (x y : Z) (t : string) (f : font) (d : Z * Z) : TextDraw :=
  mkDraw (x + fst d, y + snd d) t f black.

(** The image [create_text_image] returns once [Image.new] has made the
    canvas. *)
Definition text_image (text0 : string) (font_size width height : Z)
    (is_highlight : bool) : Image :=
  let '(x, y) := text_origin text0 font_size width height in
  mkImage "RGBA" (width, height) (0, 0, 0, 0)
    (map (outline x y (PyStr.upper text0) (load_font font_size)) stroke_offsets
       ++ [mkDraw (x, y) (PyStr.upper text0) (load_font font_size)
             (if is_highlight then bright_yellow else normal_yellow)]).

(** The clip the loop body builds for one word. *)
Definition word_clip (width font_size height caption_y : Z)
    (highlight_words : list string) (word_data : WordTiming) : ImageClip :=
  let d := PyFloat.sub (end_ word_data) (start word_data) in
  mkClip (text_image (text word_data) font_size width height
                     (is_highlight_of highlight_words word_data))
         true (start word_data) (Some d)
         (Some (PyFloat.add (start word_data) d))
         (0, caption_y) [CrossFadeIn (PyFloat.decimal 1 1)].

(** The canvas of the word images: its height, once [Image.new] accepts
    it. *)
Definition canvas_of (width font_size : Z) : result Z :=
  (height <- image_height_of font_size ;;
   _ <- new_image "RGBA" (width, height) ;;
   Ok height)%result.

(** The text drawn last on the image of a clip, which lies on top. *)
Definition top_draw (c : ImageClip) : option TextDraw :=
  List.last (map Some (im_draws (clip_img c))) None.

End Elements.

(** ** Definitions used by the further properties *)

(** The font files [create_text_image] tries, in this order. *)
Definition font_candidates : list string := bold_fonts ++ ["arial.ttf"].

(** The number of words of a segment: none without the key ["words"]. *)
Definition word_count (segment : Segment) : nat :=
  match seg_words segment with
  | Some ws => List.length ws
  | None => 0%nat
  end.

(** The words of a segment as the recognizer gave them: none without the
    key ["words"]. *)
Definition raw_words (segment : Segment) : list RawWord :=
  match seg_words segment with
  | Some ws => ws
  | None => []
  end.

(** Segments whose words are all ASCII texts. *)
Definition ascii_segments (segments : list Segment) : bool :=
  forallb (fun sg => forallb (fun w => PyStr.isascii (word w)) (raw_words sg))
          segments.

(** A bounding box moved by [xy]. *)
Definition shift (xy : Z * Z) (box : Z * Z * Z * Z) : Z * Z * Z * Z :=
  let '(b0, b1, b2, b3) := box in
  (b0 + fst xy, b1 + snd xy, b2 + fst xy, b3 + snd xy).

(** A rasterizer like [plain_rasterizer] whose glyphs are [53] wide and
    whose ink lies between [10] and [40] below the position of the text. *)
Definition inked_rasterizer : Rasterizer := {|
  new_image := @new_image plain_rasterizer;
  font := unit;
  truetype := fun _ _ => None;
  load_default := tt;
  textbbox := fun xy t _ =>
    shift xy (0, 10, 53 * Z.of_nat (String.length t), 40)
|}.

(** A word record with its text in upper case. *)
Definition upper_word (wd : WordTiming) : WordTiming :=
  mkWord (PyStr.upper (text wd)) (start wd) (end_ wd).

(** The lines a run prints when every step succeeds, for a transcript of
    [n] words. *)
Definition progress_lines (n : nat) : list string :=
  ["Loading Whisper model...";
   "Transcribing audio...";
   ("Extracted " ++ PyStr.of_nat n ++ " words with timestamps")%string;
   "Loading video...";
   "Compositing captions...";
   ("Rendering final video to " ++ output_video ++ "...")%string;
   "Video rendering complete!";
   ("Successfully created captioned video: " ++ output_video)%string].

Definition success_line : string :=
  ("Successfully created captioned video: " ++ output_video)%string.

(** What the conversion of an [int] past the float range raises. *)
Definition too_large : exn :=
  OverflowError "int too large to convert to float".

(** A recognizer that hears " Hello" and " world" in one segment, followed
    by a segment without word-level detail, over a video of [1080 x 1920]
    that is written without error. *)
Definition hello_recognizer : @Collaborators plain_rasterizer := {|
  model := unit;
  load_model := fun _ => Ok tt;
  transcribe_segments := fun _ _ =>
    Ok [mkSegment
          (Some [mkRawWord " Hello" (PyFloat.decimal 0 0) (PyFloat.decimal 5 1);
                 mkRawWord " world" (PyFloat.decimal 5 1) (PyFloat.decimal 12 1)]);
        mkSegment None];
  video := unit;
  VideoFileClip := fun _ => Ok tt;
  video_w := fun _ => 1080;
  video_h := fun _ => 1920;
  video_fps := fun _ => PyFloat.decimal 30 0;
  write_videofile := fun _ _ _ _ _ _ _ => Ok tt
|}.

Section Pieces.
Context {R : Rasterizer}.

(** The text drawn last on an image. *)
Definition fill_draw (img : Image) : option TextDraw :=
  List.last (map Some (im_draws img)) None.

(** The box of the ink of a drawn text: what [textbbox] measures for the
    text at its position. *)
Definition ink_box (d : TextDraw) : Z * Z * Z * Z :=
  textbbox (draw_xy d) (draw_text d) (draw_font d).

(** The layout of two transcripts, one after the other. *)
Definition layout_both (ws1 ws2 : list WordTiming) (video_size : Z * Z)
    (hl : option (list string)) : result (list ImageClip) :=
  (c1 <- create_word_caption_clips ws1 video_size hl ;;
   c2 <- create_word_caption_clips ws2 video_size hl ;;
   Ok (c1 ++ c2))%result.

End Pieces.

(** * Properties *)

(** ** Exact float results *)

Section FloatFacts.
Import PyFloat.

Lemma digits2_iter_xO (p k : positive) :
  digits2_pos (Pos.iter xO p k) = (digits2_pos p + k)%positive.
Proof.
induction k as [|k IH] using Pos.peano_ind.
- cbn. lia.
- rewrite Pos.iter_succ. cbn. rewrite IH. lia.
Qed.

Lemma Zpos_iter_xO (p k : positive) :
  Zpos (Pos.iter xO p k) = Zpos p * 2 ^ Zpos k.
Proof.
induction k as [|k IH] using Pos.peano_ind.
- cbn. lia.
- rewrite Pos.iter_succ, Pos2Z.inj_xO, IH, Pos2Z.inj_succ, Z.pow_succ_r by lia. lia.
Qed.

Lemma digits2_mant53 (p : positive) :
  Zpos (digits2_pos p) <= 53 -> Zpos (digits2_pos (mant53 p)) = 53.
Proof.
intros H. unfold mant53.
destruct (53 - Zpos (digits2_pos p)) as [|k|k] eqn:E; try lia.
rewrite digits2_iter_xO. lia.
Qed.

Lemma shr_fexp_canonical (m : positive) (e : Z) :
  Zpos (digits2_pos m) = 53 -> -1074 <= e ->
  shr_fexp prec emax (Zpos m) e loc_Exact
  = (Build_shr_record (Zpos m) false false, e).
Proof.
intros Hd He. unfold shr_fexp. cbn [Zdigits2 shr_record_of_loc].
replace (fexp prec emax (Zpos (digits2_pos m) + e) - e) with 0
  by (unfold fexp, emin, prec, emax; lia).
reflexivity.
Qed.

Lemma round_aux_canonical (s : bool) (m : positive) (e : Z) :
  Zpos (digits2_pos m) = 53 -> -1074 <= e <= 971 ->
  binary_round_aux prec emax s (Zpos m) e loc_Exact = S754_finite s m e.
Proof.
intros Hd He. unfold binary_round_aux.
rewrite shr_fexp_canonical by (assumption || lia).
cbn [shr_m loc_of_shr_record round_nearest_even].
rewrite shr_fexp_canonical by (assumption || lia).
cbn [shr_m].
replace (e <=? emax - prec) with true
  by (symmetry; apply Z.leb_le; unfold emax, prec; lia).
reflexivity.
Qed.

Lemma round_int_small (p : positive) :
  Zpos (digits2_pos p) <= 53 ->
  round_int (Zpos p) = S754_finite false (mant53 p) (Zpos (digits2_pos p) - 53).
Proof.
intros H. unfold round_int, binary_normalize, binary_round, shl_align.
assert (Hf : fexp prec emax (Zpos (digits2_pos p) + 0) = Zpos (digits2_pos p) - 53)
  by (unfold fexp, emin, prec, emax; lia).
rewrite Hf. unfold mant53.
replace (53 - Zpos (digits2_pos p)) with (- (Zpos (digits2_pos p) - 53 - 0)) by lia.
destruct (Zpos (digits2_pos p) - 53 - 0) as [|k|k] eqn:E; try lia; cbn [Z.opp].
- rewrite round_aux_canonical by lia. f_equal. lia.
- rewrite round_aux_canonical; [reflexivity | rewrite digits2_iter_xO; lia | lia].
Qed.

Lemma Zpos_mant53 (p : positive) :
  Zpos (digits2_pos p) <= 53 ->
  Zpos (mant53 p) = Zpos p * 2 ^ (53 - Zpos (digits2_pos p)).
Proof.
intros H. unfold mant53.
destruct (53 - Zpos (digits2_pos p)) as [|k|k] eqn:E; try lia.
apply Zpos_iter_xO.
Qed.

Lemma iter_pos_iter {A : Type} (g : A -> A) (n : positive) (x : A) :
  iter_pos g n x = Pos.iter g x n.
Proof.
revert x. induction n as [n IH|n IH|]; intros x; cbn.
- rewrite !IH. now rewrite <- !Pos.iter_swap.
- now rewrite !IH.
- reflexivity.
Qed.

Lemma shr_iter_xO (m k : positive) :
  iter_pos shr_1 k (Build_shr_record (Zpos (Pos.iter xO m k)) false false)
  = Build_shr_record (Zpos m) false false.
Proof.
rewrite iter_pos_iter.
induction k as [|k IH] using Pos.peano_ind.
- reflexivity.
- rewrite Pos.iter_succ_r, Pos.iter_succ. cbn [shr_1 orb]. exact IH.
Qed.

Lemma round_aux_shifted (s : bool) (m k : positive) (e : Z) :
  Zpos (digits2_pos m) = 53 -> -1074 <= e + Zpos k <= 971 ->
  binary_round_aux prec emax s (Zpos (Pos.iter xO m k)) e loc_Exact
  = S754_finite s m (e + Zpos k).
Proof.
intros Hd He.
unfold binary_round_aux. unfold shr_fexp at 1.
cbn [Zdigits2 shr_record_of_loc]. rewrite digits2_iter_xO.
replace (fexp prec emax (Zpos (digits2_pos m + k) + e) - e) with (Zpos k)
  by (unfold fexp, emin, prec, emax; lia).
cbn [shr]. rewrite shr_iter_xO.
cbn [shr_m loc_of_shr_record round_nearest_even].
rewrite shr_fexp_canonical by (assumption || lia).
cbn [shr_m].
replace (e + Zpos k <=? emax - prec) with true
  by (symmetry; apply Z.leb_le; unfold emax, prec; lia).
reflexivity.
Qed.

Lemma mul_half (m : positive) (e : Z) :
  Zpos (digits2_pos m) = 53 -> -1073 <= e <= 972 ->
  mul (S754_finite false m e) half = S754_finite false m (e - 1).
Proof.
intros Hd He. unfold mul, half, SFmul. cbn [xorb].
replace (Pos.mul m 4503599627370496) with (Pos.iter xO m 52)
  by (rewrite Pos.mul_comm; reflexivity).
rewrite round_aux_shifted by (assumption || lia).
f_equal. lia.
Qed.

Lemma digits2_size (p : positive) : digits2_pos p = Pos.size p.
Proof. induction p as [p IH|p IH|]; cbn; now rewrite ?IH. Qed.

Lemma digits2_bound (p : positive) (n : Z) :
  0 <= n -> Zpos p < 2 ^ n -> Zpos (digits2_pos p) <= n.
Proof.
intros Hn Hp. rewrite digits2_size.
pose proof (Pos.size_le p) as Hs.
apply Pos2Z.pos_le_pos in Hs.
rewrite Pos2Z.inj_pow in Hs.
destruct (Z.le_gt_cases (Zpos (Pos.size p)) n) as [Hle|Hgt]; [exact Hle|].
assert (2 ^ (n + 1) <= 2 ^ Zpos (Pos.size p))
  by (apply Z.pow_le_mono_r; lia).
rewrite Z.pow_add_r, Z.pow_1_r in H by lia. lia.
Qed.

Lemma caption_y_of_exact (height : Z) :
  0 <= height < 2 ^ 53 -> caption_y_of height = Ok (height / 2).
Proof.
intros H. unfold caption_y_of, of_int.
change (decimal 5 1) with half.
destruct height as [|p|p]; [reflexivity| |lia].
assert (Hd : Zpos (digits2_pos p) <= 53) by (apply digits2_bound; lia).
rewrite round_int_small by exact Hd. cbn [bind].
assert (Hd1 : 1 <= Zpos (digits2_pos p)) by lia.
rewrite mul_half; [|now apply digits2_mant53|lia].
unfold to_int.
replace (0 <=? Zpos (digits2_pos p) - 53 - 1) with false
  by (symmetry; apply Z.leb_gt; lia).
cbn [cond_Zopp]. f_equal.
rewrite Z.shiftr_div_pow2 by lia.
rewrite Zpos_mant53 by exact Hd.
replace (- (Zpos (digits2_pos p) - 53 - 1))
  with ((53 - Zpos (digits2_pos p)) + 1) by lia.
rewrite Z.pow_add_r, Z.pow_1_r by lia.
assert (Hq : 0 < 2 ^ (53 - Zpos (digits2_pos p)))
  by (apply Z.pow_pos_nonneg; lia).
rewrite <- Z.div_div by lia.
now rewrite Z.div_mul by lia.
Qed.

Lemma shl_align_value (m : positive) (e ez : Z) :
  ez <= e -> Zpos (fst (shl_align m e ez)) = Zpos m * 2 ^ (e - ez).
Proof.
  intros H. unfold shl_align.
  destruct (ez - e) as [|d|d] eqn:E; cbn [fst]; try lia.
  - replace (e - ez) with 0 by lia. lia.
  - rewrite Zpos_iter_xO. f_equal. f_equal. lia.
Qed.

Lemma digits2_lt (p : positive) : Zpos p < 2 ^ Zpos (digits2_pos p).
Proof.
  rewrite digits2_size. pose proof (Pos.size_gt p) as H.
  apply Pos2Z.pos_lt_pos in H. now rewrite Pos2Z.inj_pow in H.
Qed.

Lemma digits2_le (p : positive) : 2 ^ Zpos (digits2_pos p) <= 2 * Zpos p.
Proof.
  rewrite digits2_size. pose proof (Pos.size_le p) as H.
  apply Pos2Z.pos_le_pos in H. now rewrite Pos2Z.inj_pow in H.
Qed.

Lemma bounded_digits (m : positive) (e : Z) :
  bounded prec emax m e = true ->
  -1074 <= e /\ Zpos (digits2_pos m) <= 53 /\
  (-1074 < e -> Zpos (digits2_pos m) = 53).
Proof.
  unfold bounded, canonical_mantissa, fexp, emin, prec, emax.
  intros H. apply andb_true_iff in H. destruct H as [H _].
  apply Z.eqb_eq in H. lia.
Qed.

Lemma bounded_lt (m1 m2 : positive) (e1 e2 : Z) :
  bounded prec emax m1 e1 = true -> bounded prec emax m2 e2 = true ->
  e1 < e2 -> Zpos m1 < Zpos m2 * 2 ^ (e2 - e1).
Proof.
  intros H1 H2 He.
  apply bounded_digits in H1. apply bounded_digits in H2.
  destruct H1 as (L1 & D1 & _). destruct H2 as (_ & _ & D2).
  specialize (D2 ltac:(lia)).
  pose proof (digits2_lt m1) as U1. pose proof (digits2_le m2) as U2.
  rewrite D2 in U2.
  assert (2 ^ Zpos (digits2_pos m1) <= 2 ^ 53) by (apply Z.pow_le_mono_r; lia).
  assert (2 ^ 1 <= 2 ^ (e2 - e1)) by (apply Z.pow_le_mono_r; lia).
  rewrite Z.pow_1_r in *. nia.
Qed.

Lemma finite_leb_aligned (sx sy : bool) (mx my : positive) (ex ey : Z) :
  bounded prec emax mx ex = true -> bounded prec emax my ey = true ->
  leb (S754_finite sx mx ex) (S754_finite sy my ey) = true ->
  cond_Zopp sx (Zpos (fst (shl_align mx ex (Z.min ex ey))))
  - cond_Zopp sy (Zpos (fst (shl_align my ey (Z.min ex ey)))) <= 0.
Proof.
  intros Bx By. unfold leb, SFleb, SFcompare.
  rewrite !shl_align_value by lia.
  assert (Px : 0 < 2 ^ (ex - Z.min ex ey)) by (apply Z.pow_pos_nonneg; lia).
  assert (Py : 0 < 2 ^ (ey - Z.min ex ey)) by (apply Z.pow_pos_nonneg; lia).
  destruct sx, sy; cbn [cond_Zopp]; try discriminate; try nia.
  - destruct (Z.compare_spec ex ey) as [E|E|E]; try discriminate.
    + subst ey. rewrite Z.min_id, Z.sub_diag. change (2 ^ 0) with 1.
      fold (Pos.compare mx my).
      destruct (Pos.compare_spec mx my); cbn [CompOpp]; try discriminate; intros _; lia.
    + intros _. rewrite Z.min_r by lia. rewrite Z.sub_diag. change (2 ^ 0) with 1.
      pose proof (bounded_lt my mx ey ex By Bx E). lia.
  - destruct (Z.compare_spec ex ey) as [E|E|E]; try discriminate.
    + subst ey. rewrite Z.min_id, Z.sub_diag. change (2 ^ 0) with 1.
      fold (Pos.compare mx my).
      destruct (Pos.compare_spec mx my); cbn [CompOpp]; try discriminate; intros _; lia.
    + intros _. rewrite Z.min_l by lia. rewrite Z.sub_diag. change (2 ^ 0) with 1.
      pose proof (bounded_lt mx my ex ey Bx By E). lia.
Qed.

Lemma shr_1_m (r : shr_record) :
  0 <= shr_m r -> shr_m (shr_1 r) = shr_m r / 2.
Proof.
destruct r as [m r s]. cbn [shr_m]. intros Hm.
destruct m as [|[p|p|]|p]; cbn [shr_1 shr_m]; try reflexivity; try lia.
- rewrite Pos2Z.inj_xI. apply Z.div_unique with (r := 1); lia.
- rewrite Pos2Z.inj_xO. apply Z.div_unique with (r := 0); lia.
Qed.

Lemma shr_iter_m (k : positive) (r : shr_record) :
  0 <= shr_m r -> shr_m (iter_pos shr_1 k r) = shr_m r / 2 ^ Zpos k.
Proof.
rewrite iter_pos_iter. intros Hm.
induction k as [|k IH] using Pos.peano_ind.
- cbn [Pos.iter]. rewrite shr_1_m by exact Hm. reflexivity.
- rewrite Pos.iter_succ, shr_1_m.
  + rewrite IH, Pos2Z.inj_succ, Z.pow_succ_r, Z.div_div by lia.
    f_equal. lia.
  + rewrite IH. apply Z.div_pos; [exact Hm|]. apply Z.pow_pos_nonneg; lia.
Qed.

Lemma shr_fexp_positive (m : positive) (e : Z) :
  -1074 <= e ->
  0 < shr_m (fst (shr_fexp prec emax (Zpos m) e loc_Exact))
  /\ -1074 <= snd (shr_fexp prec emax (Zpos m) e loc_Exact).
Proof.
intros He. unfold shr_fexp. cbn [Zdigits2 shr_record_of_loc].
destruct (fexp prec emax (Zpos (digits2_pos m) + e) - e) as [|k|k] eqn:E;
  cbn [shr fst snd shr_m]; try (split; lia).
unfold fexp, emin, prec, emax in E.
rewrite shr_iter_m by (cbn; lia). cbn [shr_m].
split; [|lia].
pose proof (digits2_le m) as Hd.
assert (Hk : Zpos (digits2_pos m) = 53 + Zpos k) by lia.
rewrite Hk, Z.pow_add_r in Hd by lia.
assert (0 < 2 ^ Zpos k) by (apply Z.pow_pos_nonneg; lia).
apply Z.div_str_pos. split; [lia|].
change (2 ^ 53) with 9007199254740992 in Hd. nia.
Qed.

Lemma round_nearest_even_pos (m : Z) (l : location) :
  0 < m -> 0 < round_nearest_even m l.
Proof.
intros H. destruct l as [|[| |]]; cbn [round_nearest_even]; try lia.
destruct (Z.even m); lia.
Qed.

Lemma round_aux_positive (m : positive) (e : Z) :
  -1074 <= e ->
  ltb (S754_zero false) (binary_round_aux prec emax false (Zpos m) e loc_Exact)
  = true.
Proof.
intros He. unfold binary_round_aux.
destruct (shr_fexp_positive m e He) as [H1 H2].
destruct (shr_fexp prec emax (Zpos m) e loc_Exact) as [mrs' e'].
cbn [fst snd] in H1, H2.
pose proof (round_nearest_even_pos (shr_m mrs') (loc_of_shr_record mrs') H1) as H3.
destruct (round_nearest_even (shr_m mrs') (loc_of_shr_record mrs'))
  as [|m'|m'] eqn:E; try lia.
destruct (shr_fexp_positive m' e' H2) as [H4 _].
destruct (shr_fexp prec emax (Zpos m') e' loc_Exact) as [mrs'' e''].
cbn [fst] in H4.
destruct (shr_m mrs'') as [|m''|m'']; try lia.
now destruct (e'' <=? emax - prec).
Qed.

Lemma normalize_positive (n e : Z) :
  0 < n -> -1074 <= e ->
  ltb (S754_zero false) (binary_normalize prec emax n e false) = true.
Proof.
intros Hn He. destruct n as [|p|p]; try lia.
unfold binary_normalize, binary_round, shl_align.
destruct (fexp prec emax (Zpos (digits2_pos p) + e) - e) as [|d|d] eqn:E;
  apply round_aux_positive; try lia.
unfold fexp, emin, prec, emax in *. lia.
Qed.

Lemma finite_ltb_aligned (sx sy : bool) (mx my : positive) (ex ey : Z) :
  bounded prec emax mx ex = true -> bounded prec emax my ey = true ->
  ltb (S754_finite sy my ey) (S754_finite sx mx ex) = true ->
  0 < cond_Zopp sx (Zpos (fst (shl_align mx ex (Z.min ex ey))))
      - cond_Zopp sy (Zpos (fst (shl_align my ey (Z.min ex ey)))).
Proof.
intros Bx By. unfold ltb, SFltb, SFcompare.
rewrite !shl_align_value by lia.
assert (Px : 0 < 2 ^ (ex - Z.min ex ey)) by (apply Z.pow_pos_nonneg; lia).
assert (Py : 0 < 2 ^ (ey - Z.min ex ey)) by (apply Z.pow_pos_nonneg; lia).
destruct sx, sy; cbn [cond_Zopp]; try discriminate; try nia.
- destruct (Z.compare_spec ey ex) as [E|E|E]; try discriminate.
  + subst ey. rewrite Z.min_id, Z.sub_diag. change (2 ^ 0) with 1.
    fold (Pos.compare my mx).
    destruct (Pos.compare_spec my mx); cbn [CompOpp]; try discriminate;
      intros _; lia.
  + intros _. rewrite Z.min_l by lia. rewrite Z.sub_diag. change (2 ^ 0) with 1.
    pose proof (bounded_lt mx my ex ey Bx By E). lia.
- destruct (Z.compare_spec ey ex) as [E|E|E]; try discriminate.
  + subst ey. rewrite Z.min_id, Z.sub_diag. change (2 ^ 0) with 1.
    fold (Pos.compare my mx).
    destruct (Pos.compare_spec my mx); cbn [CompOpp]; try discriminate;
      intros _; lia.
  + intros _. rewrite Z.min_r by lia. rewrite Z.sub_diag. change (2 ^ 0) with 1.
    pose proof (bounded_lt my mx ey ex By Bx E). lia.
Qed.

Lemma sub_positive (x y : float) :
  valid x = true -> valid y = true -> ltb y x = true ->
  ltb (S754_zero false) (sub x y) = true.
Proof.
intros Vx Vy. unfold valid in *.
destruct x as [sx|sx| |sx mx ex], y as [sy|sy| |sy my ey];
  try (destruct sx); try (destruct sy); try reflexivity; try discriminate.
all: cbn [valid_binary] in Vx, Vy.
all: intros L; unfold sub, SFsub; apply normalize_positive;
  [now apply finite_ltb_aligned|].
all: apply bounded_digits in Vx; apply bounded_digits in Vy; lia.
Qed.

Lemma round_aux_below_zero (m : positive) (e : Z) :
  -1074 <= e ->
  ltb (binary_round_aux prec emax true (Zpos m) e loc_Exact) (S754_zero false)
  = true.
Proof.
intros He. unfold binary_round_aux.
destruct (shr_fexp_positive m e He) as [H1 H2].
destruct (shr_fexp prec emax (Zpos m) e loc_Exact) as [mrs' e'].
cbn [fst snd] in H1, H2.
pose proof (round_nearest_even_pos (shr_m mrs') (loc_of_shr_record mrs') H1) as H3.
destruct (round_nearest_even (shr_m mrs') (loc_of_shr_record mrs'))
  as [|m'|m'] eqn:E; try lia.
destruct (shr_fexp_positive m' e' H2) as [H4 _].
destruct (shr_fexp prec emax (Zpos m') e' loc_Exact) as [mrs'' e''].
cbn [fst] in H4.
destruct (shr_m mrs'') as [|m''|m'']; try lia.
now destruct (e'' <=? emax - prec).
Qed.

Lemma normalize_negative (n e : Z) :
  n < 0 -> -1074 <= e ->
  ltb (binary_normalize prec emax n e false) (S754_zero false) = true.
Proof.
intros Hn He. destruct n as [|p|p]; try lia.
unfold binary_normalize, binary_round, shl_align.
destruct (fexp prec emax (Zpos (digits2_pos p) + e) - e) as [|d|d] eqn:E;
  apply round_aux_below_zero; try lia.
unfold fexp, emin, prec, emax in *. lia.
Qed.

(** The difference of two finite numbers [x <= y] is zero or negative. *)
Lemma sub_zero_or_negative (x y : float) :
  valid x = true -> valid y = true -> finite x = true -> finite y = true ->
  leb x y = true ->
  is_zero (sub x y) = true \/ ltb (sub x y) (S754_zero false) = true.
Proof.
intros Vx Vy Fx Fy. unfold valid in *.
destruct x as [sx|sx| |sx mx ex], y as [sy|sy| |sy my ey]; try discriminate.
- intros _. left. now destruct sx, sy.
- destruct sy; [discriminate|]. intros _. now right.
- destruct sx; [|discriminate]. intros _. now right.
- cbn [valid_binary] in Vx, Vy. intros L.
  pose proof (finite_leb_aligned sx sy mx my ex ey Vx Vy L) as D.
  unfold sub, SFsub.
  destruct (Z.eq_dec
              (cond_Zopp sx (Zpos (fst (shl_align mx ex (Z.min ex ey))))
               - cond_Zopp sy (Zpos (fst (shl_align my ey (Z.min ex ey))))) 0)
    as [E|E].
  + left. now rewrite E.
  + right. apply normalize_negative; [lia|].
    apply bounded_digits in Vx. apply bounded_digits in Vy. lia.
Qed.


(** ** Rounding of wide integers *)

Lemma fexp_large (z : Z) : -1021 <= z -> fexp prec emax z = z - 53.
Proof. unfold fexp, emin, prec, emax. lia. Qed.

Lemma normalize_exact (p : positive) (e : Z) :
  Zpos (digits2_pos p) <= 53 ->
  -1074 <= e + Zpos (digits2_pos p) - 53 <= 971 ->
  binary_normalize prec emax (Zpos p) e false
  = S754_finite false (mant53 p) (e + Zpos (digits2_pos p) - 53).
Proof.
intros Hd He. unfold binary_normalize, binary_round, shl_align.
rewrite fexp_large by lia. unfold mant53.
replace (53 - Zpos (digits2_pos p))
  with (- (Zpos (digits2_pos p) + e - 53 - e)) by lia.
destruct (Zpos (digits2_pos p) + e - 53 - e) as [|k|k] eqn:E; try lia;
  cbn [Z.opp].
- rewrite round_aux_canonical by lia. f_equal. lia.
- rewrite round_aux_canonical;
    [f_equal; lia | rewrite digits2_iter_xO; lia | lia].
Qed.

Lemma digits2_unique (p : positive) (n : Z) :
  2 ^ (n - 1) <= Zpos p < 2 ^ n -> 0 < n -> Zpos (digits2_pos p) = n.
Proof.
intros [H1 H2] Hn.
pose proof (digits2_lt p) as U. pose proof (digits2_le p) as L.
assert (Hd : 0 < Zpos (digits2_pos p)) by lia.
destruct (Z.lt_trichotomy (Zpos (digits2_pos p)) n) as [C|[C|C]]; [|exact C|].
- assert (2 ^ Zpos (digits2_pos p) <= 2 ^ (n - 1))
    by (apply Z.pow_le_mono_r; lia). lia.
- assert (2 ^ (n + 1) <= 2 ^ Zpos (digits2_pos p))
    by (apply Z.pow_le_mono_r; lia).
  rewrite Z.pow_add_r, Z.pow_1_r in H by lia. lia.
Qed.

Lemma digits2_low (p : positive) : 2 ^ (Zpos (digits2_pos p) - 1) <= Zpos p.
Proof.
pose proof (digits2_le p) as L.
replace (Zpos (digits2_pos p)) with (Zpos (digits2_pos p) - 1 + 1) in L at 1 by lia.
rewrite Z.pow_add_r, Z.pow_1_r in L by lia. lia.
Qed.

Lemma shr_m_of_loc (m : Z) (l : location) : shr_m (shr_record_of_loc m l) = m.
Proof. now destruct l as [|[| |]]. Qed.

Lemma round_nearest_even_bounds (m : Z) (l : location) :
  m <= round_nearest_even m l <= m + 1.
Proof.
destruct l as [|[| |]]; cbn [round_nearest_even]; try lia.
destruct (Z.even m); lia.
Qed.

(** The mantissa kept by [shr_fexp] on an integer of at least 53 bits. *)
Lemma shr_fexp_truncates (m : positive) (e : Z) (l : location) :
  53 <= Zpos (digits2_pos m) -> -1074 <= e + Zpos (digits2_pos m) - 53 ->
  shr_m (fst (shr_fexp prec emax (Zpos m) e l))
  = Zpos m / 2 ^ (Zpos (digits2_pos m) - 53)
  /\ snd (shr_fexp prec emax (Zpos m) e l) = e + (Zpos (digits2_pos m) - 53).
Proof.
intros Hd He. unfold shr_fexp. cbn [Zdigits2].
rewrite fexp_large by lia.
replace (Zpos (digits2_pos m) + e - 53 - e) with (Zpos (digits2_pos m) - 53) by lia.
destruct (Zpos (digits2_pos m) - 53) as [|k|k] eqn:E; try lia; cbn [shr fst snd].
- rewrite shr_m_of_loc, Z.div_1_r. split; [reflexivity|lia].
- rewrite shr_iter_m by (rewrite shr_m_of_loc; lia).
  rewrite shr_m_of_loc. split; reflexivity.
Qed.

Lemma round_aux_bracket (m : positive) (e : Z) (l : location) :
  53 <= Zpos (digits2_pos m) ->
  -1074 <= e + Zpos (digits2_pos m) - 53 < 971 ->
  exists (m' : positive) (j : Z),
    0 <= j <= 1
    /\ binary_round_aux prec emax false (Zpos m) e l
       = S754_finite false m' (e + (Zpos (digits2_pos m) - 53) + j)
    /\ Zpos (digits2_pos m') = 53
    /\ Zpos m / 2 ^ (Zpos (digits2_pos m) - 53) <= Zpos m' * 2 ^ j
       <= Zpos m / 2 ^ (Zpos (digits2_pos m) - 53) + 1.
Proof.
intros Hd He. unfold binary_round_aux.
destruct (shr_fexp_truncates m e l Hd ltac:(lia)) as [H1 H2].
destruct (shr_fexp prec emax (Zpos m) e l) as [mrs' e1]. cbn [fst snd] in H1, H2.
set (k := Zpos (digits2_pos m) - 53) in *.
set (t := Zpos m / 2 ^ k) in *.
assert (Hk : 0 <= k) by (unfold k; lia).
assert (Pk : 0 < 2 ^ k) by (apply Z.pow_pos_nonneg; lia).
assert (Ht : 2 ^ 52 <= t < 2 ^ 53).
{ pose proof (digits2_lt m) as U. pose proof (digits2_low m) as L.
  replace (Zpos (digits2_pos m)) with (53 + k) in U by (unfold k; lia).
  replace (Zpos (digits2_pos m) - 1) with (52 + k) in L by (unfold k; lia).
  rewrite Z.pow_add_r in U, L by lia.
  unfold t. split.
  - apply Z.div_le_lower_bound; lia.
  - apply Z.div_lt_upper_bound; lia. }
pose proof (round_nearest_even_bounds (shr_m mrs') (loc_of_shr_record mrs')) as Hr.
rewrite H1 in Hr. rewrite H1. subst e1.
destruct (round_nearest_even t (loc_of_shr_record mrs')) as [|t'|t'] eqn:Et;
  try lia.
destruct (Z.lt_ge_cases (Zpos t') (2 ^ 53)) as [C|C].
- (* no carry *)
  assert (Dt : Zpos (digits2_pos t') = 53) by (apply digits2_unique; lia).
  rewrite shr_fexp_canonical by lia. cbn [shr_m].
  replace (e + k <=? emax - prec) with true
    by (symmetry; apply Z.leb_le; unfold emax, prec; lia).
  exists t', 0. rewrite Z.add_0_r, Z.mul_1_r. repeat split; try lia. 
- (* the mantissa is rounded up to 2^53 *)
  assert (Zpos t' = 2 ^ 53) by lia.
  assert (t' = 9007199254740992%positive) by lia. subst t'.
  exists 4503599627370496%positive, 1.
  split; [lia|]. split; [|split; [reflexivity|lia]].
  unfold shr_fexp. cbn [Zdigits2 digits2_pos Pos.succ shr_record_of_loc].
  rewrite fexp_large by lia.
  replace (54 + (e + k) - 53 - (e + k)) with 1 by lia.
  cbn [shr iter_pos shr_1 shr_m orb].
  replace (e + k + 1 <=? emax - prec) with true
    by (symmetry; apply Z.leb_le; unfold emax, prec; lia).
  reflexivity.
Qed.


Lemma decimal_96 : decimal 96 1 = y96.
Proof. reflexivity. Qed.

Lemma normalize_wide (p : positive) (e : Z) :
  53 <= Zpos (digits2_pos p) -> -1074 <= e + Zpos (digits2_pos p) - 53 ->
  binary_normalize prec emax (Zpos p) e false
  = binary_round_aux prec emax false (Zpos p) e loc_Exact.
Proof.
intros Hd He. unfold binary_normalize, binary_round, shl_align.
rewrite fexp_large by lia.
destruct (Zpos (digits2_pos p) + e - 53 - e) as [|k|k] eqn:E; try lia;
  reflexivity.
Qed.

Lemma rem96_nonzero (w : Z) :
  0 < w < 2 ^ 52 -> (w * 2 ^ 49) mod Zpos M96 <> 0.
Proof.
intros Hw E. apply Z.mod_divide in E; [|discriminate].
rewrite Z.mul_comm in E. apply Z.gauss in E; [|reflexivity].
apply Z.divide_pos_le in E; [|lia].
change (2 ^ 52) with 4503599627370496 in Hw. unfold M96 in E. lia.
Qed.

Lemma fmod_96 (w : positive) :
  4 <= Zpos (digits2_pos w) <= 52 ->
  fmod (S754_finite false (mant53 w) (Zpos (digits2_pos w) - 53)) y96
  = binary_normalize prec emax ((Zpos w * 2 ^ 49) mod Zpos M96) (-49) false.
Proof.
intros Hd. unfold fmod, y96.
assert (Hw : 0 < Zpos w < 2 ^ 52).
{ split; [lia|]. pose proof (digits2_lt w) as U.
  assert (2 ^ Zpos (digits2_pos w) <= 2 ^ 52) by (apply Z.pow_le_mono_r; lia).
  lia. }
rewrite Z.min_r by lia.
replace (-49 - -49) with 0 by lia. rewrite Z.shiftl_0_r.
rewrite Z.shiftl_mul_pow2 by lia.
rewrite Zpos_mant53 by lia. rewrite <- Z.mul_assoc, <- Z.pow_add_r by lia.
replace (53 - Zpos (digits2_pos w) + (Zpos (digits2_pos w) - 53 - -49))
  with 49 by lia.
rewrite Z.rem_mod_nonneg by lia.
pose proof (rem96_nonzero (Zpos w) Hw) as Hr.
pose proof (Z.mod_pos_bound (Zpos w * 2 ^ 49) (Zpos M96) ltac:(lia)) as Hb.
destruct ((Zpos w * 2 ^ 49) mod Zpos M96) as [|r|r]; [congruence|reflexivity|lia].
Qed.

Lemma sub_aligned (m1 m2 : positive) (e1 e2 : Z) :
  e2 <= e1 ->
  sub (S754_finite false m1 e1) (S754_finite false m2 e2)
  = binary_normalize prec emax (Zpos m1 * 2 ^ (e1 - e2) - Zpos m2) e2 false.
Proof.
intros He. unfold sub, SFsub. rewrite Z.min_r by lia.
rewrite !shl_align_value by lia. cbn [cond_Zopp].
now rewrite Z.sub_diag, Z.mul_1_r.
Qed.

Lemma add_aligned (m1 m2 : positive) (e1 e2 : Z) :
  e2 <= e1 ->
  add (S754_finite false m1 e1) (S754_finite false m2 e2)
  = binary_normalize prec emax (Zpos m1 * 2 ^ (e1 - e2) + Zpos m2) e2 false.
Proof.
intros He. unfold add, SFadd. rewrite Z.min_r by lia.
rewrite !shl_align_value by lia. cbn [cond_Zopp].
now rewrite Z.sub_diag, Z.mul_1_r.
Qed.

Lemma div_by_96 (m : positive) (e : Z) :
  Zpos (digits2_pos m) = 53 -> -1000 <= e <= 900 ->
  div (S754_finite false m e) y96
  = binary_round_aux prec emax false (Zpos m * 2 ^ 53 / Zpos M96) (e - 4)
      (new_location (Zpos M96) ((Zpos m * 2 ^ 53) mod Zpos M96)).
Proof.
intros Hd He. unfold div, y96, SFdiv, SFdiv_core_binary. cbn [xorb Zdigits2].
rewrite Hd. change (Zpos (digits2_pos M96)) with 53.
rewrite fexp_large by lia.
replace (Z.min (53 + e - (53 + -49) - 53) (e - -49)) with (e - 4) by lia.
replace (e - -49 - (e - 4)) with 53 by lia.
rewrite Z.shiftl_mul_pow2 by lia.
unfold Z.div, Z.modulo.
now destruct (Z.div_eucl (Zpos m * 2 ^ 53) (Zpos M96)).
Qed.

Lemma digits2_scaled (p P : positive) (j : Z) :
  0 <= j -> Zpos P = Zpos p * 2 ^ j ->
  Zpos (digits2_pos P) = Zpos (digits2_pos p) + j.
Proof.
intros Hj HP. apply digits2_unique; [|lia].
pose proof (digits2_lt p) as U. pose proof (digits2_low p) as L.
assert (Pj : 0 < 2 ^ j) by (apply Z.pow_pos_nonneg; lia).
rewrite HP.
replace (Zpos (digits2_pos p) + j - 1) with (Zpos (digits2_pos p) - 1 + j) by lia.
rewrite !Z.pow_add_r by lia. nia.
Qed.

(** An integer that is a float mantissa scaled by a power of two is
    rounded to itself. *)
Lemma normalize_scaled (p P : positive) (j e : Z) :
  0 <= j -> Zpos P = Zpos p * 2 ^ j ->
  Zpos (digits2_pos p) <= 53 ->
  -1074 <= e + j + Zpos (digits2_pos p) - 53 <= 971 ->
  binary_normalize prec emax (Zpos P) e false
  = S754_finite false (mant53 p) (e + j + Zpos (digits2_pos p) - 53).
Proof.
intros Hj HP Hd He.
pose proof (digits2_scaled p P j Hj HP) as HD.
assert (Pj : 0 < 2 ^ j) by (apply Z.pow_pos_nonneg; lia).
destruct (Z.le_gt_cases (Zpos (digits2_pos P)) 53) as [C|C].
- rewrite normalize_exact by lia.
  replace (mant53 P) with (mant53 p); [f_equal; lia|].
  apply Pos2Z.inj. rewrite !Zpos_mant53 by lia.
  rewrite HP, HD, <- Z.mul_assoc, <- Z.pow_add_r by lia.
  f_equal. f_equal. lia.
- rewrite normalize_wide by lia.
  assert (Hk : exists k : positive, Zpos k = Zpos (digits2_pos P) - 53).
  { destruct (Zpos (digits2_pos P) - 53) as [|k|k] eqn:E; try lia. now exists k. }
  destruct Hk as [k Hk].
  replace P with (Pos.iter xO (mant53 p) k).
  + rewrite round_aux_shifted; [f_equal; lia|now apply digits2_mant53|lia].
  + apply Pos2Z.inj. rewrite Zpos_iter_xO, Zpos_mant53, HP by lia.
    rewrite <- Z.mul_assoc, <- Z.pow_add_r by lia. f_equal. f_equal. lia.
Qed.

Lemma to_int_mant53 (p : positive) :
  Zpos (digits2_pos p) <= 53 ->
  to_int (S754_finite false (mant53 p) (Zpos (digits2_pos p) - 53)) = Ok (Zpos p).
Proof.
intros Hd. unfold to_int. cbn [cond_Zopp]. f_equal.
rewrite Zpos_mant53 by lia.
destruct (Z.leb_spec 0 (Zpos (digits2_pos p) - 53)) as [C|C].
- replace (Zpos (digits2_pos p) - 53) with 0 by lia.
  replace (53 - Zpos (digits2_pos p)) with 0 by lia.
  rewrite Z.shiftl_0_r. lia.
- rewrite Z.shiftr_div_pow2 by lia.
  replace (- (Zpos (digits2_pos p) - 53)) with (53 - Zpos (digits2_pos p)) by lia.
  apply Z.div_mul. apply Z.pow_nonzero; lia.
Qed.

Lemma ltb_half (r : positive) (ed : Z) :
  -52 <= ed -> Zpos (digits2_pos r) <= - ed ->
  ltb half (S754_finite false (mant53 r) (ed + Zpos (digits2_pos r) - 53))
  = (2 ^ (- ed) <? 2 * Zpos r).
Proof.
intros He Hd. unfold ltb, SFltb, SFcompare, half.
pose proof (digits2_lt r) as U. pose proof (digits2_low r) as L.
destruct (Z.compare_spec (-53) (ed + Zpos (digits2_pos r) - 53)) as [E|E|E];
  [|lia|].
- assert (Hde : Zpos (digits2_pos r) = - ed) by lia.
  fold (Pos.compare 4503599627370496 (mant53 r)).
  pose proof (Zpos_mant53 r ltac:(lia)) as Hm.
  rewrite Hde in *.
  assert (P1 : 0 < 2 ^ (53 - - ed)) by (apply Z.pow_pos_nonneg; lia).
  assert (P2 : 2 ^ (- ed) * 2 ^ (53 - - ed) = 2 ^ 53)
    by (rewrite <- Z.pow_add_r by lia; f_equal; lia).
  change (2 ^ 53) with 9007199254740992 in P2.
  set (b := 2 ^ (53 - - ed)) in *.
  destruct (Pos.compare_spec 4503599627370496 (mant53 r)) as [C|C|C];
    symmetry; [apply Z.ltb_ge|apply Z.ltb_lt|apply Z.ltb_ge].
  + apply Z.mul_le_mono_pos_r with (p := b); [exact P1|].
    rewrite P2, <- Z.mul_assoc, <- Hm. lia.
  + apply Z.mul_lt_mono_pos_r with (p := b); [exact P1|].
    rewrite P2, <- Z.mul_assoc, <- Hm. lia.
  + apply Z.mul_le_mono_pos_r with (p := b); [exact P1|].
    rewrite P2, <- Z.mul_assoc, <- Hm. apply Pos2Z.pos_lt_pos in C. clear - C. generalize dependent (Zpos (mant53 r)). intros z C. lia.
- symmetry. apply Z.ltb_ge.
  assert (2 ^ Zpos (digits2_pos r) <= 2 ^ (- ed - 1))
    by (apply Z.pow_le_mono_r; lia).
  replace (- ed) with (- ed - 1 + 1) at 1 by lia.
  rewrite Z.pow_add_r, Z.pow_1_r by lia. lia.
Qed.

Lemma floor_finite (md : positive) (ed : Z) (F : positive) :
  Zpos (digits2_pos md) = 53 -> ed < 0 ->
  Zpos F = Zpos md / 2 ^ (- ed) ->
  -52 <= ed
  /\ Zpos (digits2_pos F) = 53 + ed
  /\ Zpos (mant53 F) = Zpos F * 2 ^ (- ed)
  /\ floor (S754_finite false md ed) = S754_finite false (mant53 F) ed.
Proof.
intros Hd He HF.
pose proof (digits2_lt md) as U. pose proof (digits2_low md) as L.
rewrite Hd in U, L. change (53 - 1) with 52 in L.
assert (PU : 0 < 2 ^ (- ed)) by (apply Z.pow_pos_nonneg; lia).
assert (H52 : -52 <= ed).
{ destruct (Z.le_gt_cases (-52) ed) as [C|C]; [exact C|].
  assert (2 ^ 53 <= 2 ^ (- ed)) by (apply Z.pow_le_mono_r; lia).
  rewrite Z.div_small in HF by lia. lia. }
assert (HdF : Zpos (digits2_pos F) = 53 + ed).
{ apply digits2_unique; [|lia]. rewrite HF.
  replace (2 ^ 53) with (2 ^ (53 + ed) * 2 ^ (- ed)) in U
    by (rewrite <- Z.pow_add_r by lia; f_equal; lia).
  replace (2 ^ 52) with (2 ^ (53 + ed - 1) * 2 ^ (- ed)) in L
    by (rewrite <- Z.pow_add_r by lia; f_equal; lia).
  split.
  - apply Z.div_le_lower_bound; lia.
  - apply Z.div_lt_upper_bound; lia. }
split; [exact H52|]. split; [exact HdF|].
assert (Hm : Zpos (mant53 F) = Zpos F * 2 ^ (- ed)).
{ rewrite Zpos_mant53 by lia. f_equal. f_equal. lia. }
split; [exact Hm|].
unfold floor. replace (0 <=? ed) with false by (symmetry; apply Z.leb_gt; lia).
cbn [cond_Zopp]. rewrite Z.shiftr_div_pow2 by lia. rewrite <- HF.
rewrite round_int_small by lia. f_equal. lia.
Qed.

Lemma snap_to_integer (md : positive) (ed n : Z) :
  Zpos (digits2_pos md) = 53 -> ed < 0 -> 2 <= n < 2 ^ 52 ->
  (2 * n - 1) * 2 ^ (- ed) < 2 * Zpos md <= (2 * n + 1) * 2 ^ (- ed) ->
  bind (let fl := floor (S754_finite false md ed) in
        if ltb half (sub (S754_finite false md ed) fl)
        then Ok (add fl one) else Ok fl)
       to_int
  = Ok n.
Proof.
intros Hd He Hn Hb. cbv zeta.
assert (PU : 0 < 2 ^ (- ed)) by (apply Z.pow_pos_nonneg; lia).
pose proof (Z.div_mod (Zpos md) (2 ^ (- ed)) ltac:(lia)) as Hdm.
pose proof (Z.mod_pos_bound (Zpos md) (2 ^ (- ed)) PU) as Hr.
set (U := 2 ^ (- ed)) in *.
remember (Zpos md / U) as Fz eqn:EF. remember (Zpos md mod U) as rho eqn:Er.
assert (HF : Fz = n /\ 2 * rho <= U \/ Fz = n - 1 /\ U < 2 * rho) by nia.
assert (HFpos : exists F : positive, Zpos F = Fz).
{ destruct Fz as [|F|F]; try lia. now exists F. }
destruct HFpos as [F HFz].
destruct (floor_finite md ed F Hd He) as (H52 & HdF & HmF & Hfl);
  [now rewrite HFz, EF|].
fold U in HmF.
rewrite Hfl. rewrite sub_aligned by lia.
rewrite Z.sub_diag, Z.mul_1_r, HmF, HFz.
replace (Zpos md - Fz * U) with rho by lia.
destruct rho as [|r|r]; [| |lia].
- (* the quotient is integral *)
  cbn [binary_normalize]. change (ltb half (S754_zero false)) with false.
  cbn [bind]. replace ed with (Zpos (digits2_pos F) - 53) by lia.
  rewrite to_int_mant53 by lia. f_equal. lia.
- assert (Hdr : Zpos (digits2_pos r) <= - ed).
  { apply digits2_bound; [lia|]. fold U. lia. }
  rewrite normalize_exact by lia.
  rewrite ltb_half by lia. fold U.
  destruct (Z.ltb_spec U (2 * Zpos r)) as [C|C]; cbn [bind].
  + (* the quotient fell just below the integer *)
    unfold one. rewrite add_aligned by lia.
    assert (HP : exists P : positive,
               Zpos P = Zpos (mant53 F) * 2 ^ (ed - -52) + 4503599627370496).
    { assert (Q1 : 0 < 2 ^ (ed - -52)) by (apply Z.pow_pos_nonneg; lia).
      assert (Q2 : 0 < Zpos (mant53 F) * 2 ^ (ed - -52))
        by (apply Z.mul_pos_pos; lia).
      destruct (Zpos (mant53 F) * 2 ^ (ed - -52) + 4503599627370496)
        as [|P|P] eqn:E; [lia|now exists P|lia]. }
    destruct HP as [P HP]. rewrite <- HP.
    assert (HG : exists G : positive, Zpos G = Fz + 1).
    { destruct (Fz + 1) as [|G|G] eqn:E; try lia. now exists G. }
    destruct HG as [G HG].
    assert (HPG : Zpos P = Zpos G * 2 ^ 52).
    { rewrite HP, HmF, HG, HFz. unfold U.
      rewrite <- Z.mul_assoc, <- Z.pow_add_r by lia.
      replace (- ed + (ed - -52)) with 52 by lia.
      change (2 ^ 52) with 4503599627370496. lia. }
    assert (HdG : Zpos (digits2_pos G) <= 53)
      by (apply digits2_bound; [lia|change (2 ^ 52) with 4503599627370496 in Hn;
                                    change (2 ^ 53) with 9007199254740992; lia]).
    pose proof (digits2_low G) as LG.
    assert (1 <= Zpos (digits2_pos G)) by lia.
    rewrite (normalize_scaled G P 52 (-52)) by (try exact HPG; lia).
    replace (-52 + 52 + Zpos (digits2_pos G) - 53)
      with (Zpos (digits2_pos G) - 53) by lia.
    rewrite to_int_mant53 by lia. f_equal. lia.
  + replace ed with (Zpos (digits2_pos F) - 53) by lia.
    rewrite to_int_mant53 by lia. f_equal. lia.
Qed.

(** ** The error of the quotient by 9.6 *)

(** The integer core of the error analysis. *)
Lemma scaled_bracket (D T J t m : Z) :
  0 < T -> T * t <= D < T * (t + 1) -> t <= m * J <= t + 1 ->
  D - T < m * (T * J) <= D + T.
Proof.
intros HT Ht Hm.
assert (E : m * (T * J) = T * (m * J)) by ring.
rewrite E. clear E. generalize dependent (m * J). intros x Hx.
assert (T * t <= T * x) by (apply Z.mul_le_mono_nonneg_l; lia).
assert (T * x <= T * (t + 1)) by (apply Z.mul_le_mono_nonneg_l; lia).
lia.
Qed.

Lemma quotient_within_half (n M G T1 P mz q K2 A md U : Z) :
  0 < M -> 0 < G -> 0 < P -> 0 < A -> 0 < U ->
  n * (M * G) - T1 < mz * P <= n * (M * G) + T1 ->
  M * q <= mz * 2 ^ 53 < M * (q + 1) ->
  q - K2 < md * A <= q + K2 ->
  U * (P * A) = G * 2 ^ 53 ->
  2 * (T1 * 2 ^ 53 + M * (K2 + 1) * P) <= M * G * 2 ^ 53 ->
  0 <= T1 -> 0 <= K2 ->
  (2 * n - 1) * U < 2 * md <= (2 * n + 1) * U.
Proof.
intros HM HG HP HA HU H1 H2 H3 HE Herr HT HK.
change (2 ^ 53) with 9007199254740992 in *.
set (c := 9007199254740992) in *.
assert (Hc : 0 < c) by (unfold c; lia).
assert (HMPA : 0 < M * (P * A)) by (apply Z.mul_pos_pos; [lia|apply Z.mul_pos_pos; lia]).
(* M * (md * A) * P against mz * P * c *)
assert (U1 : M * (md * A) <= mz * c + M * K2).
{ assert (M * (md * A) <= M * (q + K2)) by (apply Z.mul_le_mono_nonneg_l; lia).
  lia. }
assert (L1 : mz * c - M * (K2 + 1) < M * (md * A)).
{ assert (M * (q - K2 + 1) <= M * (md * A)) by (apply Z.mul_le_mono_nonneg_l; lia).
  lia. }
assert (U2 : M * (md * A) * P <= (mz * P) * c + M * K2 * P).
{ assert (M * (md * A) * P <= (mz * c + M * K2) * P)
    by (apply Z.mul_le_mono_nonneg_r; lia).
  lia. }
assert (L2 : (mz * P) * c - M * (K2 + 1) * P < M * (md * A) * P).
{ assert ((mz * c - M * (K2 + 1)) * P < M * (md * A) * P)
    by (apply Z.mul_lt_mono_pos_r; lia).
  lia. }
assert (U3 : (mz * P) * c <= (n * (M * G) + T1) * c)
  by (apply Z.mul_le_mono_nonneg_r; lia).
assert (L3 : (n * (M * G) - T1 + 1) * c <= (mz * P) * c)
  by (apply Z.mul_le_mono_nonneg_r; lia).
assert (E1 : M * (md * A) * P = md * (M * (P * A))) by ring.
assert (E2 : forall k, k * U * (M * (P * A)) = k * (M * G * c)).
{ intros k. replace (k * U * (M * (P * A))) with (k * M * (U * (P * A))) by ring.
  rewrite HE. ring. }
assert (HMP : 0 < M * P) by (apply Z.mul_pos_pos; lia).
split.
- apply Z.mul_lt_mono_pos_r with (p := M * (P * A)); [exact HMPA|].
  rewrite E2. replace (2 * md * (M * (P * A))) with (2 * (md * (M * (P * A)))) by ring.
  rewrite <- E1. clear - U2 L2 U3 L3 Herr HMP Hc. lia.
- apply Z.mul_le_mono_pos_r with (p := M * (P * A)); [exact HMPA|].
  rewrite E2. replace (2 * md * (M * (P * A))) with (2 * (md * (M * (P * A)))) by ring.
  rewrite <- E1. clear - U2 L2 U3 L3 Herr HMP Hc. lia.
Qed.

Lemma ltb_finite_zero (m : positive) (e : Z) :
  ltb (S754_finite false m e) (S754_zero false) = false.
Proof. reflexivity. Qed.

Lemma digits2_high (p : positive) (n : Z) :
  2 ^ n <= Zpos p -> n < Zpos (digits2_pos p).
Proof.
intros H. pose proof (digits2_lt p) as U.
destruct (Z.lt_ge_cases n (Zpos (digits2_pos p))) as [C|C]; [exact C|].
assert (2 ^ Zpos (digits2_pos p) <= 2 ^ n) by (apply Z.pow_le_mono_r; lia).
lia.
Qed.

Lemma floordiv_96 (w : positive) :
  6 <= Zpos (digits2_pos w) <= 51 ->
  bind (floordiv (S754_finite false (mant53 w) (Zpos (digits2_pos w) - 53)) y96)
       to_int
  = Ok (Zpos w * 2 ^ 49 / Zpos M96).
Proof.
intros Hd.
pose proof (digits2_lt w) as Uw. pose proof (digits2_low w) as Lw.
assert (Hw : 2 ^ 5 <= Zpos w < 2 ^ 51).
{ assert (2 ^ 5 <= 2 ^ (Zpos (digits2_pos w) - 1)) by (apply Z.pow_le_mono_r; lia).
  assert (2 ^ Zpos (digits2_pos w) <= 2 ^ 51) by (apply Z.pow_le_mono_r; lia).
  lia. }
pose proof (Z.div_mod (Zpos w * 2 ^ 49) (Zpos M96) ltac:(discriminate)) as Hdm.
pose proof (Z.mod_pos_bound (Zpos w * 2 ^ 49) (Zpos M96) ltac:(lia)) as Hrb.
pose proof (rem96_nonzero (Zpos w) ltac:(change (2^52) with 4503599627370496; change (2^51) with 2251799813685248 in Hw; change (2^5) with 32 in Hw; lia)) as Hr0.
unfold floordiv. change (is_zero y96) with false. cbv beta iota zeta.
rewrite fmod_96 by lia.
remember (Zpos w * 2 ^ 49 / Zpos M96) as n eqn:En.
remember ((Zpos w * 2 ^ 49) mod Zpos M96) as rz eqn:Er.
destruct rz as [|r|r]; [congruence| |lia].
assert (Hdr : Zpos (digits2_pos r) <= 53).
{ apply digits2_bound; [lia|]. change (2 ^ 53) with 9007199254740992.
  unfold M96 in Hrb. lia. }
rewrite normalize_exact by lia.
cbn [is_zero]. rewrite ltb_finite_zero.
change (ltb y96 (S754_zero false)) with false. cbn [Bool.eqb negb].
rewrite sub_aligned by lia.
set (dr := Zpos (digits2_pos r)) in *. set (d := Zpos (digits2_pos w)) in *.
assert (Hdr1 : 1 <= dr) by (unfold dr; lia).
set (G := 2 ^ (53 - dr)).
assert (HG : 0 < G) by (apply Z.pow_pos_nonneg; lia).
assert (HDz : Zpos (mant53 w) * 2 ^ (d - 53 - (-49 + dr - 53)) - Zpos (mant53 r)
              = n * (Zpos M96 * G)).
{ rewrite !Zpos_mant53 by (fold d dr; lia). fold d dr.
  rewrite <- Z.mul_assoc, <- Z.pow_add_r by lia.
  replace (53 - d + (d - 53 - (-49 + dr - 53))) with (49 + (53 - dr)) by lia.
  rewrite Z.pow_add_r by lia. fold G.
  replace (Zpos w * (2 ^ 49 * G)) with (Zpos w * 2 ^ 49 * G) by ring.
  rewrite Hdm. ring. }
rewrite HDz.
change (2 ^ 49) with 562949953421312 in Hdm.
change (2 ^ 5) with 32 in Hw. change (2 ^ 51) with 2251799813685248 in Hw.
assert (Hn : 2 <= n < 2 ^ 48).
{ change (2 ^ 48) with 281474976710656. unfold M96 in *. lia. }
assert (HMG : 2 ^ 52 <= Zpos M96 * G)
  by (change (2 ^ 52) with 4503599627370496; unfold M96; lia).
assert (HnMG : 2 * (Zpos M96 * G) <= n * (Zpos M96 * G))
  by (apply Z.mul_le_mono_nonneg_r; lia).
assert (HD : exists pD : positive, Zpos pD = n * (Zpos M96 * G)).
{ destruct (n * (Zpos M96 * G)) as [|pD|pD] eqn:E; try lia. now exists pD. }
destruct HD as [pD HpD]. rewrite <- HpD.
assert (HdD1 : 53 <= Zpos (digits2_pos pD)).
{ assert (52 < Zpos (digits2_pos pD)) by (apply digits2_high; lia). lia. }
assert (HdD2 : Zpos (digits2_pos pD) <= d + 102 - dr).
{ apply digits2_bound; [lia|].
  replace (d + 102 - dr) with (d + 49 + (53 - dr)) by lia.
  rewrite Z.pow_add_r by lia. fold G. rewrite Z.pow_add_r by lia.
  change (2 ^ 49) with 562949953421312. fold d in Uw.
  rewrite HpD.
  assert (n * (Zpos M96 * G) = (n * Zpos M96) * G) by ring.
  assert ((n * Zpos M96) * G < (2 ^ d * 562949953421312) * G)
    by (apply Z.mul_lt_mono_pos_r; lia).
  lia. }
rewrite normalize_wide by lia.
destruct (round_aux_bracket pD (-49 + dr - 53) loc_Exact HdD1 ltac:(lia))
  as (mz & j1 & Hj1 & Hz & Hdz & Hbz).
rewrite Hz.
set (k1 := Zpos (digits2_pos pD) - 53) in *.
rewrite div_by_96 by lia.
pose proof (digits2_lt mz) as Umz. pose proof (digits2_low mz) as Lmz.
rewrite Hdz in Umz, Lmz.
change (2 ^ 53) with 9007199254740992 in Umz.
change (2 ^ (53 - 1)) with 4503599627370496 in Lmz.
pose proof (Z.div_mod (Zpos mz * 2 ^ 53) (Zpos M96) ltac:(discriminate)) as Hqm.
pose proof (Z.mod_pos_bound (Zpos mz * 2 ^ 53) (Zpos M96) ltac:(lia)) as Hqb.
remember (Zpos mz * 2 ^ 53 / Zpos M96) as q eqn:Eq.
generalize (new_location (Zpos M96) ((Zpos mz * 2 ^ 53) mod Zpos M96)).
intros lz.
assert (Hq : 2 ^ 52 <= q < 2 ^ 54).
{ change (2 ^ 53) with 9007199254740992 in Hqm, Hqb.
  change (2 ^ 52) with 4503599627370496. change (2 ^ 54) with 18014398509481984.
  unfold M96 in *. lia. }
assert (Hpq : exists pq : positive, Zpos pq = q).
{ destruct q as [|pq|pq]; try (change (2 ^ 52) with 4503599627370496 in Hq; lia).
  now exists pq. }
destruct Hpq as [pq Hpq]. rewrite <- Hpq.
assert (Hdq1 : 53 <= Zpos (digits2_pos pq)).
{ assert (52 < Zpos (digits2_pos pq)) by (apply digits2_high; lia). lia. }
assert (Hdq2 : Zpos (digits2_pos pq) <= 54) by (apply digits2_bound; lia).
destruct (round_aux_bracket pq (-49 + dr - 53 + k1 + j1 - 4) lz Hdq1
            ltac:(unfold k1; lia))
  as (md & j2 & Hj2 & Hv & Hdd & Hbd).
rewrite Hv. cbn [is_zero].
set (k2 := Zpos (digits2_pos pq) - 53) in *.
apply (snap_to_integer md _ n Hdd); [unfold k1, k2; lia|
  change (2 ^ 52) with 4503599627370496; change (2 ^ 48) with 281474976710656 in Hn; lia|].
assert (Hk1 : 0 <= k1 <= d + 49 - dr) by (unfold k1; lia).
assert (Hk2 : 0 <= k2 <= 1) by (unfold k2; lia).
assert (PT1 : 0 < 2 ^ k1) by (apply Z.pow_pos_nonneg; lia).
assert (PJ1 : 1 <= 2 ^ j1 <= 2).
{ destruct (Z.eq_dec j1 0) as [->|]; [cbn; lia|].
  replace j1 with 1 by lia. cbn. lia. }
assert (PK2 : 1 <= 2 ^ k2 <= 2).
{ destruct (Z.eq_dec k2 0) as [->|]; [cbn; lia|].
  replace k2 with 1 by lia. cbn. lia. }
assert (PJ2 : 1 <= 2 ^ j2 <= 2).
{ destruct (Z.eq_dec j2 0) as [->|]; [cbn; lia|].
  replace j2 with 1 by lia. cbn. lia. }
apply (quotient_within_half n (Zpos M96) G (2 ^ k1) (2 ^ k1 * 2 ^ j1)
         (Zpos mz) (Zpos pq) (2 ^ k2) (2 ^ k2 * 2 ^ j2) (Zpos md)).
- reflexivity.
- exact HG.
- apply Z.mul_pos_pos; lia.
- apply Z.mul_pos_pos; lia.
- apply Z.pow_pos_nonneg; lia.
- rewrite <- HpD. apply scaled_bracket with (t := Zpos pD / 2 ^ k1);
    [exact PT1| |exact Hbz].
  split; [apply Z.mul_div_le; exact PT1|].
  replace (Zpos pD / 2 ^ k1 + 1) with (Z.succ (Zpos pD / 2 ^ k1)) by lia.
  apply Z.mul_succ_div_gt. exact PT1.
- rewrite Hpq. lia.
- apply scaled_bracket with (t := Zpos pq / 2 ^ k2); [lia| |exact Hbd].
  split; [apply Z.mul_div_le; lia|].
  replace (Zpos pq / 2 ^ k2 + 1) with (Z.succ (Zpos pq / 2 ^ k2)) by lia.
  apply Z.mul_succ_div_gt. lia.
- unfold G. rewrite <- !Z.pow_add_r by lia. f_equal. lia.
- (* the two rounding errors stay below half a unit *)
  pose proof (digits2_low pD) as LD.
  replace (Zpos (digits2_pos pD) - 1) with (k1 + 52) in LD by (unfold k1; lia).
  rewrite Z.pow_add_r in LD by lia.
  change (2 ^ 52) with 4503599627370496 in LD.
  change (2 ^ 53) with 9007199254740992.
  change (2 ^ 48) with 281474976710656 in Hn.
  assert (B1 : n * (Zpos M96 * G) <= 281474976710655 * (Zpos M96 * G))
    by (apply Z.mul_le_mono_nonneg_r; lia).
  assert (B2 : 2 ^ k1 * 2 ^ j1 <= 2 ^ k1 * 2)
    by (apply Z.mul_le_mono_nonneg_l; lia).
  assert (B3 : 2 ^ k2 * (2 ^ k1 * 2 ^ j1) <= 2 * (2 ^ k1 * 2 ^ j1))
    by (apply Z.mul_le_mono_nonneg_r; lia).
  replace (Zpos M96 * (2 ^ k2 + 1) * (2 ^ k1 * 2 ^ j1))
    with (Zpos M96 * (2 ^ k2 * (2 ^ k1 * 2 ^ j1)) + Zpos M96 * (2 ^ k1 * 2 ^ j1))
    by ring.
  rewrite HpD in LD.
  generalize dependent (2 ^ k2 * (2 ^ k1 * 2 ^ j1)). intros z3 B3.
  generalize dependent (2 ^ k1 * 2 ^ j1). intros z2 B2 B3.
  generalize dependent (2 ^ k1). intros z1. intros.
  unfold M96 in *. clear - LD B1 B2 B3 HG. lia.
- lia.
- lia.
Qed.

End FloatFacts.

(** ** The transcript normalizer *)

Lemma fold_append_word (ws : list RawWord) (acc : list WordTiming) :
  fold_left append_word ws acc = acc ++ map trimmed ws.
Proof.
  revert acc. induction ws as [|w ws IH]; intros acc; cbn.
  - now rewrite app_nil_r.
  - rewrite IH. unfold append_word, trimmed. now rewrite <- app_assoc.
Qed.

Lemma append_segment_words (acc : list WordTiming) (segment : Segment) :
  append_segment acc segment = acc ++ segment_words segment.
Proof.
  unfold append_segment, segment_words.
  destruct (seg_words segment) as [ws|].
  - apply fold_append_word.
  - now rewrite app_nil_r.
Qed.

Lemma fold_append_segment (segments : list Segment) (acc : list WordTiming) :
  fold_left append_segment segments acc
  = acc ++ List.concat (map segment_words segments).
Proof.
  revert acc. induction segments as [|sg segments IH]; intros acc; cbn.
  - now rewrite app_nil_r.
  - rewrite IH, append_segment_words. now rewrite <- app_assoc.
Qed.

Lemma word_segments_of_concat (segments : list Segment) :
  word_segments_of segments = List.concat (map segment_words segments).
Proof. unfold word_segments_of. now rewrite fold_append_segment. Qed.

(** ** Text images *)

Lemma In_range (lo hi z : Z) : In z (range lo hi) <-> lo <= z < hi.
Proof.
unfold range. rewrite in_map_iff. split.
- intros (k & <- & Hk). apply in_seq in Hk. lia.
- intros H. exists (Z.to_nat (z - lo)). split; [lia|]. apply in_seq. lia.
Qed.

Lemma In_stroke_offsets (dx dy : Z) :
  In (dx, dy) stroke_offsets
  <-> Z.abs dx <= 4 /\ Z.abs dy <= 4 /\ ~ (dx = 0 /\ dy = 0).
Proof.
unfold stroke_offsets. rewrite filter_In, in_prod_iff, !In_range.
unfold keep. cbn [fst snd].
rewrite negb_true_iff, andb_false_iff, !Z.eqb_neq. lia.
Qed.

Section RenderFacts.
Context {R : Rasterizer}.

Lemma stroke_step_draws (x y : Z) (t : string) (f : font) (dx : Z)
    (img : Image) (dy : Z) :
  stroke_step x y t f dx img dy
  = mkImage (im_mode img) (im_size img) (im_color img)
            (im_draws img ++ map (outline x y t f) (filter keep [(dx, dy)])).
Proof.
unfold stroke_step, keep. cbn [filter fst snd]. rewrite negb_andb.
destruct (negb (dx =? 0) || negb (dy =? 0)); cbn [map].
- reflexivity.
- rewrite app_nil_r. now destruct img.
Qed.

Lemma stroke_col_draws (x y : Z) (t : string) (f : font) (dx : Z)
    (dys : list Z) (img : Image) :
  fold_left (stroke_step x y t f dx) dys img
  = mkImage (im_mode img) (im_size img) (im_color img)
            (im_draws img
               ++ map (outline x y t f) (filter keep (map (pair dx) dys))).
Proof.
revert img. induction dys as [|dy dys IH]; intros img; cbn [fold_left map].
- cbn. rewrite app_nil_r. now destruct img.
- rewrite IH, stroke_step_draws. cbn [im_mode im_size im_color im_draws].
  change ((dx, dy) :: map (pair dx) dys) with ([(dx, dy)] ++ map (pair dx) dys).
  now rewrite filter_app, map_app, app_assoc.
Qed.

Lemma stroke_rows_draws (x y : Z) (t : string) (f : font) (dxs : list Z)
    (img : Image) :
  fold_left (stroke_row x y t f) dxs img
  = mkImage (im_mode img) (im_size img) (im_color img)
            (im_draws img
               ++ map (outline x y t f)
                      (filter keep (list_prod dxs (range (-4) 5)))).
Proof.
revert img. induction dxs as [|dx dxs IH]; intros img; cbn [fold_left list_prod].
- cbn. rewrite app_nil_r. now destruct img.
- rewrite IH. unfold stroke_row. rewrite stroke_col_draws.
  cbn [im_mode im_size im_color im_draws].
  now rewrite filter_app, map_app, app_assoc.
Qed.

(** [create_text_image] fails when [Image.new] does, before anything is
    drawn, and returns the image [text_image] otherwise. *)
Lemma create_text_image_draws (text0 : string) (font_size width height : Z)
    (is_highlight : bool) :
  create_text_image text0 font_size width height is_highlight
  = (_ <- new_image "RGBA" (width, height) ;;
     Ok (text_image text0 font_size width height is_highlight))%result.
Proof.
unfold create_text_image, Image_new, text_image, text_origin.
destruct (new_image "RGBA" (width, height)) as [[]|e]; cbn [bind];
  [|reflexivity].
destruct (textbbox _ _ _) as [[[b0 b1] b2] b3].
rewrite stroke_rows_draws. reflexivity.
Qed.

Lemma text_image_draws (text0 : string) (font_size width height : Z)
    (is_highlight : bool) :
  text_image text0 font_size width height is_highlight
  = mkImage "RGBA" (width, height) (0, 0, 0, 0)
      (map (outline (fst (text_origin text0 font_size width height))
                    (snd (text_origin text0 font_size width height))
                    (PyStr.upper text0) (load_font font_size)) stroke_offsets
         ++ [mkDraw (text_origin text0 font_size width height)
               (PyStr.upper text0) (load_font font_size)
               (if is_highlight then bright_yellow else normal_yellow)]).
Proof.
unfold text_image. now destruct (text_origin text0 font_size width height).
Qed.

Lemma create_text_image_inversion (text0 : string)
    (font_size width height : Z) (is_highlight : bool) (img : Image) :
  create_text_image text0 font_size width height is_highlight = Ok img ->
  new_image "RGBA" (width, height) = Ok tt
  /\ img = text_image text0 font_size width height is_highlight.
Proof.
rewrite create_text_image_draws.
destruct (new_image "RGBA" (width, height)) as [[]|e]; cbn [bind];
  [|discriminate].
intros H. injection H as <-. now split.
Qed.

Lemma top_draw_word_clip (width font_size height caption_y : Z)
    (hl : list string) (wd : WordTiming) :
  top_draw (word_clip width font_size height caption_y hl wd)
  = Some (mkDraw (text_origin (text wd) font_size width height)
                 (PyStr.upper (text wd)) (load_font font_size)
                 (if is_highlight_of hl wd then bright_yellow
                  else normal_yellow)).
Proof.
unfold top_draw, word_clip. cbn [clip_img].
rewrite text_image_draws. cbn [im_draws].
rewrite map_app. cbn [map]. apply last_last.
Qed.

Lemma size_word_clip (width font_size height caption_y : Z)
    (hl : list string) (wd : WordTiming) :
  im_size (clip_img (word_clip width font_size height caption_y hl wd))
  = (width, height).
Proof.
unfold word_clip. cbn [clip_img]. now rewrite text_image_draws.
Qed.

End RenderFacts.

(** ** The loops of the layout *)

Section LayoutFacts.
Context {R : Rasterizer}.

Lemma group_step_clips (n : nat) (st : locals) (iw : nat * WordTiming) :
  caption_clips (group_step n st iw) = caption_clips st.
Proof.
  unfold group_step. destruct iw as [i wd].
  now destruct (_ || _).
Qed.

Lemma group_fold_clips (n : nat) (l : list (nat * WordTiming)) (st : locals) :
  caption_clips (fold_left (group_step n) l st) = caption_clips st.
Proof.
  revert st. induction l as [|iw l IH]; intros st; cbn; [reflexivity|].
  now rewrite IH, group_step_clips.
Qed.

Lemma group_loop_clips (ws : list WordTiming) (st : locals) :
  caption_clips (group_loop ws st) = caption_clips st.
Proof. apply group_fold_clips. Qed.

(** The body of the clip loop fails when the canvas cannot be made and
    adds the clip of the word otherwise. *)
Lemma clip_step_canvas (width font_size caption_y : Z) (hl : list string)
    (st : locals) (wd : WordTiming) :
  clip_step width font_size caption_y hl st wd
  = (height <- canvas_of width font_size ;;
     Ok (mkLocals
           (caption_clips st
              ++ [word_clip width font_size height caption_y hl wd])
           (lines st) (current_line st)))%result.
Proof.
unfold clip_step, canvas_of.
destruct (image_height_of font_size) as [h|e]; cbn [bind]; [|reflexivity].
rewrite create_text_image_draws.
destruct (new_image "RGBA" (width, h)) as [[]|e]; reflexivity.
Qed.

Lemma canvas_of_inversion (width font_size height : Z) :
  canvas_of width font_size = Ok height ->
  image_height_of font_size = Ok height
  /\ new_image "RGBA" (width, height) = Ok tt.
Proof.
unfold canvas_of.
destruct (image_height_of font_size) as [h|e]; cbn [bind]; [|discriminate].
destruct (new_image "RGBA" (width, h)) as [[]|e] eqn:E; cbn [bind];
  [|discriminate].
intros H. injection H as <-. now split.
Qed.

Lemma clip_step_ok (width font_size caption_y height : Z)
    (hl : list string) (st : locals) (wd : WordTiming) :
  canvas_of width font_size = Ok height ->
  clip_step width font_size caption_y hl st wd
  = Ok (mkLocals
          (caption_clips st ++ [word_clip width font_size height caption_y hl wd])
          (lines st) (current_line st)).
Proof. intros H. rewrite clip_step_canvas, H. reflexivity. Qed.

Lemma clip_loop_ok (width font_size caption_y height : Z)
    (hl : list string) (ws : list WordTiming) (st : locals) :
  canvas_of width font_size = Ok height ->
  for_each (clip_step width font_size caption_y hl) ws st
  = Ok (mkLocals
          (caption_clips st
             ++ map (word_clip width font_size height caption_y hl) ws)
          (lines st) (current_line st)).
Proof.
  intros H. revert st. induction ws as [|wd ws IH]; intros st; cbn.
  - rewrite app_nil_r. now destruct st.
  - rewrite (clip_step_ok _ _ _ _ _ _ _ H). cbn. rewrite IH. cbn.
    now rewrite <- app_assoc.
Qed.

(** The clip loop reads only [caption_clips] of its state. *)
Lemma clip_loop_frame (width font_size caption_y : Z) (hl : list string)
    (ws : list WordTiming) (st st' : locals) :
  caption_clips st = caption_clips st' ->
  map_result caption_clips
    (for_each (clip_step width font_size caption_y hl) ws st)
  = map_result caption_clips
      (for_each (clip_step width font_size caption_y hl) ws st').
Proof.
  revert st st'. induction ws as [|wd ws IH]; intros st st' E; cbn.
  - now rewrite E.
  - rewrite !clip_step_canvas.
    destruct (canvas_of width font_size) as [h|e]; cbn; [|reflexivity].
    apply IH. cbn. now rewrite E.
Qed.

Lemma layout_as_map (ws : list WordTiming) (width height : Z)
    (hl : option (list string)) (font_size caption_y ih : Z) :
  font_size_of width = Ok font_size ->
  caption_y_of height = Ok caption_y ->
  canvas_of width font_size = Ok ih ->
  create_word_caption_clips ws (width, height) hl
  = Ok (map (word_clip width font_size ih caption_y (upper_entries hl)) ws).
Proof.
  intros Hf Hy Hh. unfold create_word_caption_clips.
  rewrite Hf, Hy. cbn.
  rewrite (clip_loop_ok _ _ _ _ _ _ _ Hh). cbn.
  now rewrite group_loop_clips.
Qed.

End LayoutFacts.

(** ** Strings *)

Section StrFacts.
Import PyStr.

Lemma is_space_upper_char (c : ascii) : is_space (upper_char c) = is_space c.
Proof. destruct c as [[] [] [] [] [] [] [] []]; reflexivity. Qed.

Lemma upper_lstrip (s : string) : upper (lstrip s) = lstrip (upper s).
Proof.
induction s as [|c s IH]; cbn; [reflexivity|].
rewrite is_space_upper_char. now destruct (is_space c).
Qed.

Lemma upper_rstrip (s : string) : upper (rstrip s) = rstrip (upper s).
Proof.
induction s as [|c s IH]; cbn; [reflexivity|].
rewrite <- IH, is_space_upper_char.
destruct (rstrip s) as [|c' r]; cbn; [now destruct (is_space c)|reflexivity].
Qed.

Lemma upper_strip (s : string) : upper (strip s) = strip (upper s).
Proof. unfold strip. now rewrite upper_rstrip, upper_lstrip. Qed.

Lemma first_upper (s : string) :
  space_at (first (upper s)) = space_at (first s).
Proof. destruct s as [|c s]; cbn; [reflexivity|apply is_space_upper_char]. Qed.

Lemma last_upper (s : string) :
  space_at (last (upper s)) = space_at (last s).
Proof.
induction s as [|c s IH]; cbn; [reflexivity|].
destruct s as [|c' s]; cbn in *; [apply is_space_upper_char|exact IH].
Qed.

Lemma first_lstrip (s : string) : space_at (first (lstrip s)) = false.
Proof.
induction s as [|c s IH]; cbn; [reflexivity|].
destruct (is_space c) eqn:E; [exact IH|exact E].
Qed.

Lemma first_rstrip (s : string) :
  space_at (first s) = false -> space_at (first (rstrip s)) = false.
Proof.
destruct s as [|c s]; cbn; [reflexivity|]. intros E.
destruct (rstrip s); [rewrite E|]; cbn; now rewrite ?E.
Qed.

Lemma last_rstrip (s : string) : space_at (last (rstrip s)) = false.
Proof.
induction s as [|c s IH]; cbn; [reflexivity|].
destruct (rstrip s) as [|c' r] eqn:E.
- destruct (is_space c) eqn:Ec; cbn; [reflexivity|exact Ec].
- exact IH.
Qed.

(** A stripped string neither starts nor ends with white space. *)
Lemma strip_bare (s : string) :
  space_at (first (strip s)) = false /\ space_at (last (strip s)) = false.
Proof.
unfold strip. split; [apply first_rstrip, first_lstrip|apply last_rstrip].
Qed.

Lemma contains_In (l : list string) (s : string) :
  contains l s = true <-> In s l.
Proof.
induction l as [|x l IH]; cbn; [split; [discriminate|contradiction]|].
destruct (String.eqb s x) eqn:E.
- apply String.eqb_eq in E. split; auto.
- apply String.eqb_neq in E. rewrite IH. split; [auto|].
  intros [H|H]; [now subst|exact H].
Qed.

End StrFacts.

(** ** Numbers of the layout *)

Lemma check_from_sound (P : Z -> bool) (lo : Z) (n : positive) :
  check_from P lo n = true ->
  forall z, lo <= z < lo + Zpos n -> P z = true.
Proof.
unfold check_from.
set (step := fun zb : Z * bool => (fst zb + 1, snd zb && P (fst zb))).
assert (inv : forall k,
           fst (Pos.iter step (lo, true) k) = lo + Zpos k /\
           (snd (Pos.iter step (lo, true) k) = true ->
            forall z, lo <= z < lo + Zpos k -> P z = true)).
{ induction k as [|k IH] using Pos.peano_ind.
  - cbn. split; [reflexivity|].
    rewrite Z.add_comm. intros HP z Hz. replace z with lo by lia. exact HP.
  - rewrite Pos.iter_succ. destruct IH as [IH1 IH2].
    destruct (Pos.iter step (lo, true) k) as [z0 b0]. cbn in *. subst z0.
    split; [lia|].
    intros Hb z Hz. apply andb_true_iff in Hb. destruct Hb as [Hb HP].
    destruct (Z.eq_dec z (lo + Zpos k)) as [->|Hne]; [exact HP|].
    apply IH2; [exact Hb|lia]. }
intros H. apply (proj2 (inv n)). exact H.
Qed.

Lemma result_eqb_true (r : result Z) (z : Z) :
  result_eqb r z = true -> r = Ok z.
Proof.
destruct r as [a|e]; cbn; [|discriminate].
intros H. apply Z.eqb_eq in H. now subst.
Qed.

Lemma floor_div_96 (w : Z) :
  0 <= w < 2 ^ 51 -> w * 2 ^ 49 / Zpos M96 = w * 10 / 96.
Proof.
intros Hw. symmetry.
pose proof (Z.div_mod (w * 10) 96 ltac:(discriminate)) as Hdm.
pose proof (Z.mod_pos_bound (w * 10) 96 ltac:(lia)) as Hb.
change (2 ^ 51) with 2251799813685248 in Hw.
change (2 ^ 49) with 562949953421312.
apply Z.div_unique
  with (r := w * 562949953421312 - Zpos M96 * (w * 10 / 96)); [|lia].
unfold M96. lia.
Qed.

Lemma font_size_of_small (width : Z) :
  0 <= width < 32 -> font_size_of width = Ok (Z.min (width * 10 / 96) 125).
Proof.
intros Hw. apply result_eqb_true.
apply (check_from_sound
         (fun w => result_eqb (font_size_of w) (Z.min (w * 10 / 96) 125))
         0 32).
- vm_compute. reflexivity.
- lia.
Qed.

(** [min(int(width // 9.6), 125)] on floats is the exact
    [min(floor(width * 10 / 96), 125)]. *)
Lemma font_size_of_exact (width : Z) :
  0 <= width < 2 ^ 51 ->
  font_size_of width = Ok (Z.min (width * 10 / 96) 125).
Proof.
intros Hw.
destruct (Z.lt_ge_cases width 32) as [C|C];
  [apply font_size_of_small; lia|].
destruct width as [|w|w]; try lia.
assert (Hd : 6 <= Zpos (digits2_pos w) <= 51).
{ assert (5 < Zpos (digits2_pos w))
    by (apply digits2_high; change (2 ^ 5) with 32; lia).
  assert (Zpos (digits2_pos w) <= 51) by (apply digits2_bound; lia).
  lia. }
unfold font_size_of, PyFloat.of_int.
rewrite round_int_small by lia. cbn [bind].
rewrite decimal_96.
pose proof (floordiv_96 w Hd) as Hq.
destruct (PyFloat.floordiv _ y96) as [q|e]; cbn [bind] in *; [|discriminate].
rewrite Hq. cbn [bind]. now rewrite floor_div_96.
Qed.

Lemma image_height_of_range (font_size : Z) :
  0 <= font_size <= 125 ->
  image_height_of font_size = Ok (font_size * 15 / 10).
Proof.
intros Hf. apply result_eqb_true.
apply (check_from_sound
         (fun n => result_eqb (image_height_of n) (n * 15 / 10)) 0 126).
- vm_compute. reflexivity.
- lia.
Qed.

Lemma Qfloor_div_96 (width : Z) :
  Qfloor (inject_Z width / (96 # 10)) = width * 10 / 96.
Proof. reflexivity. Qed.

Lemma Qfloor_mul_15 (n : Z) : Qfloor (inject_Z n * (15 # 10)) = n * 15 / 10.
Proof. reflexivity. Qed.

Lemma Qfloor_mul_5 (n : Z) : Qfloor (inject_Z n * (5 # 10)) = n / 2.
Proof.
change (Qfloor (inject_Z n * (5 # 10))) with (n * 5 / (2 * 5)).
now rewrite Z.div_mul_cancel_r.
Qed.

Lemma font_size_bounds (width : Z) :
  0 <= width -> 0 <= Z.min (width * 10 / 96) 125 <= 125.
Proof.
intros H. assert (0 <= width * 10 / 96) by (apply Z.div_pos; lia). lia.
Qed.

(** ** The result of the layout *)

Section LayoutResults.
Context {R : Rasterizer}.

Lemma layout_inversion (ws : list WordTiming) (width height : Z)
    (hl : option (list string)) (clips : list ImageClip) :
  create_word_caption_clips ws (width, height) hl = Ok clips ->
  exists font_size caption_y,
    font_size_of width = Ok font_size /\
    caption_y_of height = Ok caption_y /\
    List.length clips = List.length ws /\
    forall i c, nth_error clips i = Some c ->
      exists ih wd,
        canvas_of width font_size = Ok ih /\
        nth_error ws i = Some wd /\
        c = word_clip width font_size ih caption_y (upper_entries hl) wd.
Proof.
intros H.
destruct (font_size_of width) as [fs|e] eqn:Hf;
  [|unfold create_word_caption_clips in H; rewrite Hf in H; discriminate].
destruct (caption_y_of height) as [cy|e] eqn:Hy;
  [|unfold create_word_caption_clips in H; rewrite Hf, Hy in H; discriminate].
exists fs, cy. split; [reflexivity|]. split; [reflexivity|].
destruct (canvas_of width fs) as [ih|e] eqn:Hh.
- rewrite (layout_as_map ws width height hl fs cy ih Hf Hy Hh) in H.
  injection H as <-. split; [apply length_map|].
  intros i c Hc. rewrite nth_error_map in Hc.
  destruct (nth_error ws i) as [wd|] eqn:Hi; [|discriminate].
  injection Hc as <-. now exists ih, wd.
- unfold create_word_caption_clips in H. rewrite Hf, Hy in H. cbn [bind] in H.
  destruct ws as [|wd ws].
  + cbn in H. injection H as <-. split; [reflexivity|].
    intros [|i] c Hc; discriminate.
  + cbn [for_each] in H. rewrite clip_step_canvas, Hh in H.
    discriminate.
Qed.

End LayoutResults.

(** ** The grouping loop *)

Lemma concat_pairs {A : Type} (l : list A) : List.concat (pairs l) = l.
Proof.
assert (H : forall n (l : list A), (List.length l <= n)%nat ->
              List.concat (pairs l) = l).
{ induction n as [|n IH]; intros [|a [|b l']] Hl; cbn in *;
    try reflexivity; try lia.
  rewrite IH by lia. reflexivity. }
now apply (H (List.length l)).
Qed.

Section Grouping.
Context {R : Rasterizer}.

Lemma group_step_open (n k : nat) (clips : list ImageClip)
    (lns : list (list WordTiming)) (wd : WordTiming) :
  S k <> n ->
  group_step n (mkLocals clips lns []) (k, wd) = mkLocals clips lns [wd].
Proof.
intros H. unfold group_step. cbn [current_line lines caption_clips app].
replace (Z.of_nat k =? Z.of_nat n - 1) with false
  by (symmetry; apply Z.eqb_neq; lia).
reflexivity.
Qed.

Lemma group_step_last (n k : nat) (clips : list ImageClip)
    (lns : list (list WordTiming)) (cur : list WordTiming) (wd : WordTiming) :
  S k = n ->
  group_step n (mkLocals clips lns cur) (k, wd)
  = mkLocals clips (lns ++ [cur ++ [wd]]) [].
Proof.
intros H. unfold group_step. cbn [current_line lines caption_clips].
replace (Z.of_nat k =? Z.of_nat n - 1) with true
  by (symmetry; apply Z.eqb_eq; lia).
now rewrite orb_true_r.
Qed.

Lemma group_step_full (n k : nat) (clips : list ImageClip)
    (lns : list (list WordTiming)) (a wd : WordTiming) :
  group_step n (mkLocals clips lns [a]) (k, wd)
  = mkLocals clips (lns ++ [[a; wd]]) [].
Proof. reflexivity. Qed.

(** The lines after the words [l], indexed from [k] on and ending the
    transcript of [n] words, when at most one word is waiting in the open
    line. *)
Lemma group_fold_pairs (n : nat) (l : list WordTiming) (k : nat) (st : locals) :
  (k + List.length l)%nat = n ->
  (List.length (current_line st) <= 1)%nat ->
  l <> [] ->
  let st' := fold_left (group_step n) (combine (seq k (List.length l)) l) st in
  lines st' = lines st ++ pairs (current_line st ++ l)
  /\ current_line st' = [].
Proof.
revert k st. induction l as [|wd l IH]; intros k st Hn Hc Hl; [congruence|].
cbn zeta. cbn [List.length seq combine fold_left]. cbn [List.length] in Hn.
destruct st as [clips lns cur]. cbn [current_line lines] in *.
destruct cur as [|a [|b cur]]; [| |cbn in Hc; lia].
- (* no word is waiting *)
  destruct l as [|wd' l].
  + cbn [List.length] in Hn.
    rewrite group_step_last by lia. now cbn.
  + cbn [List.length] in Hn. rewrite group_step_open by lia.
    apply (IH (S k) (mkLocals clips lns [wd]));
      [cbn [List.length]; lia|cbn; lia|discriminate].
- (* one word is waiting *)
  rewrite group_step_full.
  destruct l as [|wd' l].
  + now cbn.
  + destruct (IH (S k) (mkLocals clips (lns ++ [[a; wd]]) []))
      as [IH1 IH2]; [cbn [List.length] in *; lia|cbn; lia|discriminate|].
    cbn zeta in IH1, IH2. cbn [lines current_line app] in IH1.
    split; [|exact IH2].
    rewrite IH1, <- app_assoc. reflexivity.
Qed.

Lemma group_loop_pairs (ws : list WordTiming) :
  lines (group_loop ws (mkLocals [] [] [])) = pairs ws
  /\ current_line (group_loop ws (mkLocals [] [] [])) = [].
Proof.
destruct ws as [|wd ws]; [now cbn|].
unfold group_loop, enumerate.
apply (group_fold_pairs _ (wd :: ws) 0 (mkLocals [] [] []));
  [reflexivity|cbn; lia|discriminate].
Qed.

End Grouping.

(** ** Highlighting *)

Section Highlight.
Import PyStr.


Lemma padded_never_equal (entry s : string) :
  padded entry = true -> strip (upper s) <> upper entry.
Proof.
unfold padded. intros Hp E.
destruct (strip_bare (upper s)) as [Hf Hl].
rewrite E, first_upper in Hf. rewrite E, last_upper in Hl.
rewrite Hf, Hl in Hp. discriminate.
Qed.

Lemma contains_app (l1 l2 : list string) (s : string) :
  contains (l1 ++ l2) s = contains l1 s || contains l2 s.
Proof.
induction l1 as [|x l1 IH]; cbn; [reflexivity|].
now destruct (String.eqb s x).
Qed.

Lemma padded_entry_ignored (entry : string) (hl1 hl2 : list string)
    (wd : WordTiming) :
  padded entry = true ->
  is_highlight_of (map upper (hl1 ++ entry :: hl2)) wd
  = is_highlight_of (map upper (hl1 ++ hl2)) wd.
Proof.
intros Hp. unfold is_highlight_of.
rewrite !map_app, !contains_app. cbn [map contains].
destruct (String.eqb_spec (strip (upper (text wd))) (upper entry)) as [E|_].
- now apply padded_never_equal in E.
- reflexivity.
Qed.

End Highlight.

Section HighlightLayout.
Context {R : Rasterizer}.

Lemma clip_loop_ext (width font_size caption_y : Z) (hl hl' : list string)
    (ws : list WordTiming) (st : locals) :
  (forall wd, is_highlight_of hl wd = is_highlight_of hl' wd) ->
  for_each (clip_step width font_size caption_y hl) ws st
  = for_each (clip_step width font_size caption_y hl') ws st.
Proof.
intros E. revert st. induction ws as [|wd ws IH]; intros st; cbn; [reflexivity|].
rewrite !clip_step_canvas. unfold word_clip. rewrite E.
destruct (canvas_of width font_size); cbn; [apply IH|reflexivity].
Qed.

Lemma layout_ext (ws : list WordTiming) (size : Z * Z)
    (hl hl' : option (list string)) :
  (forall wd, is_highlight_of (upper_entries hl) wd
              = is_highlight_of (upper_entries hl') wd) ->
  create_word_caption_clips ws size hl = create_word_caption_clips ws size hl'.
Proof.
intros E. unfold create_word_caption_clips. destruct size as [width height].
destruct (font_size_of width) as [fs|e]; cbn; [|reflexivity].
destruct (caption_y_of height) as [cy|e]; cbn; [|reflexivity].
fold (upper_entries hl) (upper_entries hl').
now rewrite (clip_loop_ext _ _ _ _ _ _ _ E).
Qed.

End HighlightLayout.

(** ** The driver *)

Section DriverFacts.
Context {R : Rasterizer} {C : Collaborators}.

Lemma transcribe_ok (video_path : string) (m : model)
    (segments : list Segment) (out : list string) :
  load_model "base" = Ok m ->
  transcribe_segments m video_path = Ok segments ->
  transcribe_with_word_timestamps video_path out
  = (out ++ ["Loading Whisper model..."; "Transcribing audio...";
             ("Extracted "
              ++ PyStr.of_nat (List.length (word_segments_of segments))
              ++ " words with timestamps")%string],
     Ok (word_segments_of segments)).
Proof.
intros Hm Ht. unfold transcribe_with_word_timestamps, io_bind, print, lift, io_ret.
rewrite Hm, Ht. now rewrite <- !app_assoc.
Qed.

Lemma main_catches (e : exn) (out out' : list string) :
  main_body out = (out', Raise e) -> is_Exception e = true ->
  main out = (out' ++ [caught_message e], Ok tt).
Proof.
intros Hb He. unfold main. rewrite Hb.
destruct e; try reflexivity. discriminate.
Qed.

Lemma main_escapes (out out' : list string) :
  main_body out = (out', Raise KeyboardInterrupt) ->
  main out = (out', Raise KeyboardInterrupt).
Proof. intros Hb. unfold main. now rewrite Hb. Qed.

End DriverFacts.

(** ** Trimming and upper case *)

Section StripFacts.
Import PyStr.

Lemma upper_char_idem (c : ascii) : upper_char (upper_char c) = upper_char c.
Proof. destruct c as [[] [] [] [] [] [] [] []]; reflexivity. Qed.

Lemma upper_idem (s : string) : upper (upper s) = upper s.
Proof.
induction s as [|c s IH]; cbn; [reflexivity|].
now rewrite upper_char_idem, IH.
Qed.

Lemma lstrip_bare (s : string) : space_at (first s) = false -> lstrip s = s.
Proof. destruct s as [|c s]; cbn; [reflexivity|]. now intros ->. Qed.

Lemma rstrip_bare (s : string) : space_at (last s) = false -> rstrip s = s.
Proof.
induction s as [|c s IH]; cbn; [reflexivity|].
destruct s as [|c' s].
- cbn. now intros ->.
- intros H. now rewrite (IH H).
Qed.

Lemma strip_fixed (s : string) :
  space_at (first s) = false -> space_at (last s) = false -> strip s = s.
Proof.
intros Hf Hl. unfold strip. rewrite (lstrip_bare s Hf). now apply rstrip_bare.
Qed.

Lemma strip_idem (s : string) : strip (strip s) = strip s.
Proof. destruct (strip_bare s) as [Hf Hl]. now apply strip_fixed. Qed.




End StripFacts.

(** ** The offsets of the outline are distinct *)

Lemma NoDup_map_inj {A B : Type} (g : A -> B) (l : list A) :
  (forall a b, g a = g b -> a = b) -> NoDup l -> NoDup (map g l).
Proof.
intros Hg. apply NoDup_map_NoDup_ForallPairs. intros a b _ _. apply Hg.
Qed.

Lemma NoDup_range (lo hi : Z) : NoDup (range lo hi).
Proof.
unfold range. apply NoDup_map_inj; [intros a b; lia|apply seq_NoDup].
Qed.

Lemma NoDup_list_prod (l1 l2 : list Z) :
  NoDup l1 -> NoDup l2 -> NoDup (list_prod l1 l2).
Proof.
revert l2. induction l1 as [|a l1 IH]; intros l2 H1 H2; cbn; [constructor|].
inversion H1 as [|? ? Ha H1']; subst.
apply NoDup_app.
- apply NoDup_map_inj; [|exact H2].
  intros b c E. now injection E.
- now apply IH.
- intros [u v] Hin Hin'. apply in_map_iff in Hin.
  destruct Hin as (b & E & _). injection E as <- <-.
  apply in_prod_iff in Hin'. now destruct Hin'.
Qed.

Lemma NoDup_stroke_offsets : NoDup stroke_offsets.
Proof.
unfold stroke_offsets. apply NoDup_filter.
apply NoDup_list_prod; apply NoDup_range.
Qed.

(** ** The records of the normalizer *)

Lemma word_segments_of_app (a b : list Segment) :
  word_segments_of (a ++ b) = word_segments_of a ++ word_segments_of b.
Proof. now rewrite !word_segments_of_concat, map_app, concat_app. Qed.

Lemma word_segments_of_length (segments : list Segment) :
  List.length (word_segments_of segments) = list_sum (map word_count segments).
Proof.
rewrite word_segments_of_concat.
induction segments as [|sg segments IH]; [reflexivity|].
cbn [map List.concat]. rewrite length_app, IH.
change (list_sum (word_count sg :: map word_count segments))
  with (word_count sg + list_sum (map word_count segments))%nat.
f_equal. unfold segment_words, word_count.
destruct (seg_words sg); [apply length_map|reflexivity].
Qed.

Lemma word_segments_of_map (segments : list Segment) :
  word_segments_of segments
  = map trimmed (List.concat (map raw_words segments)).
Proof.
rewrite word_segments_of_concat.
induction segments as [|sg segments IH]; [reflexivity|].
cbn [map List.concat]. rewrite map_app, IH. f_equal.
unfold segment_words, raw_words. now destruct (seg_words sg).
Qed.

Lemma trimmed_bare (w : RawWord) : padded (text (trimmed w)) = false.
Proof.
unfold padded, trimmed. cbn [text].
destruct (strip_bare (word w)) as [-> ->]. reflexivity.
Qed.

Lemma padded_upper (s : string) : padded (PyStr.upper s) = padded s.
Proof. unfold padded. now rewrite first_upper, last_upper. Qed.

Lemma Forall_word_segments_of (P : WordTiming -> Prop) (segments : list Segment) :
  (forall w, P (trimmed w)) -> Forall P (word_segments_of segments).
Proof.
intros HP. rewrite word_segments_of_concat. apply Forall_concat.
apply Forall_map. apply Forall_forall. intros sg _. unfold segment_words.
destruct (seg_words sg) as [ws|]; [|constructor].
apply Forall_map. apply Forall_forall. intros w _. apply HP.
Qed.

(** ** The layout, word by word *)

Section LayoutPieces.
Context {R : Rasterizer}.

(** Without a canvas the layout fails at its first word. *)
Lemma layout_no_height (ws : list WordTiming) (width height : Z)
    (hl : option (list string)) (font_size caption_y : Z) (e : exn) :
  font_size_of width = Ok font_size ->
  caption_y_of height = Ok caption_y ->
  canvas_of width font_size = Raise e ->
  create_word_caption_clips ws (width, height) hl
  = match ws with [] => Ok [] | _ :: _ => Raise e end.
Proof.
intros Hf Hy Hh. unfold create_word_caption_clips. rewrite Hf, Hy. cbn [bind].
destruct ws as [|wd ws].
- reflexivity.
- cbn [for_each]. rewrite clip_step_canvas, Hh. reflexivity.
Qed.

Lemma is_highlight_upper_word (hl : list string) (wd : WordTiming) :
  is_highlight_of hl (upper_word wd) = is_highlight_of hl wd.
Proof.
unfold is_highlight_of, upper_word. cbn [text]. now rewrite upper_idem.
Qed.

Lemma clip_step_upper_word (width font_size caption_y : Z) (hl : list string)
    (st : locals) (wd : WordTiming) :
  clip_step width font_size caption_y hl st (upper_word wd)
  = clip_step width font_size caption_y hl st wd.
Proof.
unfold clip_step. rewrite is_highlight_upper_word.
unfold create_text_image, upper_word. cbn [text start end_].
now rewrite upper_idem.
Qed.

Lemma clip_loop_upper_word (width font_size caption_y : Z) (hl : list string)
    (ws : list WordTiming) (st : locals) :
  for_each (clip_step width font_size caption_y hl) (map upper_word ws) st
  = for_each (clip_step width font_size caption_y hl) ws st.
Proof.
revert st. induction ws as [|wd ws IH]; intros st; cbn [map for_each];
  [reflexivity|].
rewrite clip_step_upper_word.
destruct (clip_step _ _ _ _ st wd); cbn [bind]; [apply IH|reflexivity].
Qed.

End LayoutPieces.

(** ** Integers past the float range *)

Section Overflow.
Import PyFloat.

Lemma round_aux_overflow (m : positive) (e : Z) (l : location) :
  53 <= Zpos (digits2_pos m) ->
  971 < e + Zpos (digits2_pos m) - 53 ->
  binary_round_aux prec emax false (Zpos m) e l = S754_infinity false.
Proof.
intros Hd He. unfold binary_round_aux.
destruct (shr_fexp_truncates m e l Hd ltac:(lia)) as [H1 H2].
destruct (shr_fexp prec emax (Zpos m) e l) as [mrs' e1]. cbn [fst snd] in H1, H2.
set (k := Zpos (digits2_pos m) - 53) in *.
set (t := Zpos m / 2 ^ k) in *.
assert (Hk : 0 <= k) by (unfold k; lia).
assert (Pk : 0 < 2 ^ k) by (apply Z.pow_pos_nonneg; lia).
assert (Ht : 2 ^ 52 <= t < 2 ^ 53).
{ pose proof (digits2_lt m) as U. pose proof (digits2_low m) as L.
  replace (Zpos (digits2_pos m)) with (53 + k) in U by (unfold k; lia).
  replace (Zpos (digits2_pos m) - 1) with (52 + k) in L by (unfold k; lia).
  rewrite Z.pow_add_r in U, L by lia.
  unfold t. split.
  - apply Z.div_le_lower_bound; lia.
  - apply Z.div_lt_upper_bound; lia. }
pose proof (round_nearest_even_bounds (shr_m mrs') (loc_of_shr_record mrs')) as Hr.
rewrite H1 in Hr. rewrite H1. subst e1.
destruct (round_nearest_even t (loc_of_shr_record mrs')) as [|t'|t'] eqn:Et;
  try lia.
destruct (Z.lt_ge_cases (Zpos t') (2 ^ 53)) as [C|C].
- (* no carry: the exponent alone is past the largest one *)
  assert (Dt : Zpos (digits2_pos t') = 53) by (apply digits2_unique; lia).
  rewrite shr_fexp_canonical by lia. cbn [shr_m].
  replace (e + k <=? emax - prec) with false
    by (symmetry; apply Z.leb_gt; unfold emax, prec; lia).
  reflexivity.
- (* the mantissa is rounded up to 2^53 *)
  assert (Zpos t' = 2 ^ 53) by lia.
  assert (t' = 9007199254740992%positive) by lia. subst t'.
  unfold shr_fexp. cbn [Zdigits2 digits2_pos Pos.succ shr_record_of_loc].
  rewrite fexp_large by lia.
  replace (54 + (e + k) - 53 - (e + k)) with 1 by lia.
  cbn [shr iter_pos shr_1 shr_m orb].
  replace (e + k + 1 <=? emax - prec) with false
    by (symmetry; apply Z.leb_gt; unfold emax, prec; lia).
  reflexivity.
Qed.

Lemma of_int_overflow (n : Z) : 2 ^ 1024 <= n -> of_int n = Raise too_large.
Proof.
intros Hn. unfold of_int, round_int.
assert (P : 0 < 2 ^ 1024) by (apply Z.pow_pos_nonneg; lia).
destruct n as [|p|p]; try lia.
assert (Hd : 1024 < Zpos (digits2_pos p)) by (apply digits2_high; exact Hn).
rewrite normalize_wide by lia.
rewrite round_aux_overflow by lia. reflexivity.
Qed.

End Overflow.

Section OverflowLayout.
Context {R : Rasterizer}.

Lemma layout_width_overflow (ws : list WordTiming) (width height : Z)
    (hl : option (list string)) :
  2 ^ 1024 <= width ->
  create_word_caption_clips ws (width, height) hl = Raise too_large.
Proof.
intros Hw. unfold create_word_caption_clips, font_size_of.
now rewrite of_int_overflow.
Qed.

Lemma layout_height_overflow (ws : list WordTiming) (width height : Z)
    (hl : option (list string)) :
  0 <= width < 2 ^ 51 -> 2 ^ 1024 <= height ->
  create_word_caption_clips ws (width, height) hl = Raise too_large.
Proof.
intros Hw Hh. unfold create_word_caption_clips.
rewrite font_size_of_exact by exact Hw. cbn [bind].
unfold caption_y_of. now rewrite of_int_overflow.
Qed.

End OverflowLayout.

(** ** The steps of a run *)

Section RunFacts.
Context {R : Rasterizer} {C : Collaborators}.

Lemma main_lets_through (e : exn) (out out' : list string) :
  main_body out = (out', Raise e) -> is_Exception e = false ->
  main out = (out', Raise e).
Proof.
intros Hb He. unfold main. rewrite Hb. destruct e; try discriminate.
reflexivity.
Qed.

Lemma main_returns (out out' : list string) :
  main_body out = (out', Ok tt) -> main out = (out', Ok tt).
Proof. intros Hb. unfold main. now rewrite Hb. Qed.

(** What [main_body] does once the recognizer has returned and the video
    has been opened. *)
Lemma main_body_after_open (m : model) (segments : list Segment) (v : video) :
  load_model "base" = Ok m ->
  transcribe_segments m input_video = Ok segments ->
  VideoFileClip input_video = Ok v ->
  main_body []
  = match create_word_caption_clips (word_segments_of segments)
            (video_w v, video_h v) (Some main_highlight_words) with
    | Raise e =>
        (firstn 3 (progress_lines (List.length (word_segments_of segments))),
         Raise e)
    | Ok clips =>
        match write_videofile (v, clips) output_video "libx264" "aac"
                "temp-audio.m4a" true (video_fps v) with
        | Raise e =>
            (firstn 6 (progress_lines (List.length (word_segments_of segments))),
             Raise e)
        | Ok _ =>
            (progress_lines (List.length (word_segments_of segments)), Ok tt)
        end
    end.
Proof.
intros Hm Ht Hv. unfold main_body, io_bind at 1.
rewrite (transcribe_ok input_video m segments [] Hm Ht).
unfold io_bind at 1, lift at 1. rewrite Hv.
unfold io_bind at 1, lift at 1.
destruct (create_word_caption_clips _ _ _) as [clips|e]; [|reflexivity].
unfold compose_final_video_with_captions, io_bind, print, lift. rewrite Hv.
destruct (write_videofile _ _ _ _ _ _ _) as [[]|e]; reflexivity.
Qed.

(** The lines of the [try] block are the progress lines, all of them when
    it succeeds and fewer when it raises. *)
Lemma main_body_progress :
  exists n : nat,
    main_body [] = (progress_lines n, Ok tt)
    \/ exists (k : nat) (e : exn),
         (k < 8)%nat /\ main_body [] = (firstn k (progress_lines n), Raise e).
Proof.
destruct (load_model "base") as [m|e] eqn:Hm.
2:{ exists 0%nat. right. exists 1%nat, e. split; [lia|].
    unfold main_body, transcribe_with_word_timestamps, io_bind, print, lift.
    now rewrite Hm. }
destruct (transcribe_segments m input_video) as [segments|e] eqn:Ht.
2:{ exists 0%nat. right. exists 2%nat, e. split; [lia|].
    unfold main_body, transcribe_with_word_timestamps, io_bind, print, lift.
    now rewrite Hm, Ht. }
exists (List.length (word_segments_of segments)).
destruct (VideoFileClip input_video) as [v|e] eqn:Hv.
2:{ right. exists 3%nat, e. split; [lia|].
    unfold main_body, io_bind at 1.
    rewrite (transcribe_ok input_video m segments [] Hm Ht).
    unfold io_bind at 1, lift at 1. now rewrite Hv. }
rewrite (main_body_after_open m segments v Hm Ht Hv).
destruct (create_word_caption_clips _ _ _) as [clips|e].
2:{ right. exists 3%nat, e. split; [lia|reflexivity]. }
destruct (write_videofile _ _ _ _ _ _ _) as [[]|e].
- now left.
- right. exists 6%nat, e. split; [lia|reflexivity].
Qed.

Lemma success_line_not_before (n k : nat) :
  (k < 8)%nat -> ~ In success_line (firstn k (progress_lines n)).
Proof.
intros Hk.
do 8 (destruct k as [|k];
      [cbn; intros H; repeat (destruct H as [H|H]; [discriminate H|]); exact H|]).
lia.
Qed.

Lemma success_line_not_caught (e : exn) : caught_message e <> success_line.
Proof. destruct e; discriminate. Qed.

End RunFacts.

(** ** The shape of a result of the layout *)

Section LayoutShape.
Context {R : Rasterizer}.

Lemma layout_nil (width height : Z) (hl : option (list string))
    (font_size caption_y : Z) :
  font_size_of width = Ok font_size ->
  caption_y_of height = Ok caption_y ->
  create_word_caption_clips [] (width, height) hl = Ok [].
Proof.
intros Hf Hy. unfold create_word_caption_clips. now rewrite Hf, Hy.
Qed.

(** When the layout returns, the canvas could be made as soon as there was
    a word, and the clips are those of the words, one by one. *)
Lemma layout_shape (ws : list WordTiming) (width height : Z)
    (hl : option (list string)) (clips : list ImageClip) :
  create_word_caption_clips ws (width, height) hl = Ok clips ->
  exists font_size caption_y ih : Z,
    font_size_of width = Ok font_size
    /\ caption_y_of height = Ok caption_y
    /\ (ws <> [] -> canvas_of width font_size = Ok ih)
    /\ clips = map (word_clip width font_size ih caption_y (upper_entries hl)) ws.
Proof.
intros H.
destruct (font_size_of width) as [fs|e] eqn:Hf;
  [|unfold create_word_caption_clips in H; rewrite Hf in H; discriminate].
destruct (caption_y_of height) as [cy|e] eqn:Hy;
  [|unfold create_word_caption_clips in H; rewrite Hf, Hy in H; discriminate].
destruct (canvas_of width fs) as [ih|e] eqn:Hc.
- exists fs, cy, ih.
  rewrite (layout_as_map ws width height hl fs cy ih Hf Hy Hc) in H.
  injection H as <-. now repeat split.
- exists fs, cy, 0.
  rewrite (layout_no_height ws width height hl fs cy e Hf Hy Hc) in H.
  destruct ws as [|wd ws]; [|discriminate].
  injection H as <-. repeat split; congruence.
Qed.

(** Whether the layout returns does not depend on the times of the words. *)
Lemma layout_retimed (ws ws' : list WordTiming) (video_size : Z * Z)
    (hl : option (list string)) (clips : list ImageClip) :
  create_word_caption_clips ws video_size hl = Ok clips ->
  map text ws' = map text ws ->
  exists clips' : list ImageClip,
    create_word_caption_clips ws' video_size hl = Ok clips'
    /\ List.length clips' = List.length ws'.
Proof.
destruct video_size as [width height]. intros H E.
destruct (layout_shape ws width height hl clips H)
  as (fs & cy & ih & Hf & Hy & Hc & _).
destruct ws' as [|wd' ws'].
- exists []. split; [now apply (layout_nil width height hl fs cy)|reflexivity].
- assert (Hn : ws <> []) by (intros ->; discriminate).
  exists (map (word_clip width fs ih cy (upper_entries hl)) (wd' :: ws')).
  split; [apply layout_as_map; auto|apply length_map].
Qed.

End LayoutShape.

(** * The claims *)


(** C9: the grouping of the words into lines of two consecutive words (the
    last, shorter line included) has no observable effect: for every word
    sequence, video size and highlight list the layout returns the same
    clips, or raises the same exception, as the layout without the grouping
    loop; the loop only fills [lines] and leaves the clips alone. *)
Theorem C9_grouping_unobservable :
  forall (R : Rasterizer) (ws : list WordTiming) (video_size : Z * Z)
         (hl : option (list string)),
    create_word_caption_clips ws video_size hl
    = create_word_caption_clips_ungrouped ws video_size hl
    /\ lines (group_loop ws (mkLocals [] [] [])) = pairs ws
    /\ List.concat (lines (group_loop ws (mkLocals [] [] []))) = ws
    /\ forall st, caption_clips (group_loop ws st) = caption_clips st.
Proof.
intros R ws [width height] hl. split; [|split; [|split]].
- unfold create_word_caption_clips, create_word_caption_clips_ungrouped.
  destruct (font_size_of width) as [fs|e]; cbn [bind]; [|reflexivity].
  destruct (caption_y_of height) as [cy|e]; cbn [bind]; [|reflexivity].
  pose proof (clip_loop_frame width fs cy
                (map PyStr.upper match hl with Some l => l | None => [] end)
                ws (group_loop ws (mkLocals [] [] [])) (mkLocals [] [] [])
                (group_loop_clips ws _)) as H.
  destruct (for_each _ ws (group_loop ws _)), (for_each _ ws (mkLocals [] [] []));
    cbn in *; congruence.
- apply group_loop_pairs.
- rewrite (proj1 (group_loop_pairs ws)). apply concat_pairs.
- intros st. apply group_loop_clips.
Qed.




(** C10: the entries of the highlight list are uppercased but never
    trimmed, while the text of a word is trimmed; so an entry that starts or
    ends with white space (such as " wow ") is equal to the text of no
    word, highlights no word, and can be dropped from any highlight list
    without changing the clips of any word sequence. *)
Theorem C10_padded_entry_matches_nothing (entry : string) :
  padded entry = true ->
  (forall wd : WordTiming,
      PyStr.strip (PyStr.upper (text wd)) <> PyStr.upper entry)
  /\ (forall wd : WordTiming,
         is_highlight_of (upper_entries (Some [entry])) wd = false)
  /\ (forall (hl1 hl2 : list string) (wd : WordTiming),
         is_highlight_of (upper_entries (Some (hl1 ++ entry :: hl2))) wd
         = is_highlight_of (upper_entries (Some (hl1 ++ hl2))) wd)
  /\ (forall (R : Rasterizer) (ws : list WordTiming) (video_size : Z * Z)
             (hl1 hl2 : list string),
         create_word_caption_clips ws video_size (Some (hl1 ++ entry :: hl2))
         = create_word_caption_clips ws video_size (Some (hl1 ++ hl2))).
Proof.
intros Hp.
split; [intros wd; now apply padded_never_equal|].
split; [intros wd; apply (padded_entry_ignored entry [] [] wd Hp)|].
split; [intros hl1 hl2 wd; now apply padded_entry_ignored|].
intros R ws video_size hl1 hl2. apply layout_ext.
intros wd. now apply padded_entry_ignored.
Qed.

Lemma C10_padded_wow :
  padded " wow " = true
  /\ (forall wd : WordTiming,
         PyStr.strip (PyStr.upper (text wd)) <> PyStr.upper " wow ")
  /\ (forall wd : WordTiming,
         is_highlight_of (upper_entries (Some [" wow "])) wd = false)
  /\ (forall (hl1 hl2 : list string) (wd : WordTiming),
         is_highlight_of (upper_entries (Some (hl1 ++ " wow " :: hl2))) wd
         = is_highlight_of (upper_entries (Some (hl1 ++ hl2))) wd)
  /\ (forall (R : Rasterizer) (ws : list WordTiming) (video_size : Z * Z)
             (hl1 hl2 : list string),
         create_word_caption_clips ws video_size (Some (hl1 ++ " wow " :: hl2))
         = create_word_caption_clips ws video_size (Some (hl1 ++ hl2))).
Proof.
split; [reflexivity|].
apply (C10_padded_entry_matches_nothing " wow "). reflexivity.
Defined.

(** C2: for a word sequence without degenerate entries ([end > start] for
    every word), the layout, when it returns, has made exactly one clip per
    word, in the order of the words: the clip at index [i] starts at the
    [start] of the word at index [i], lasts [end - start], which is
    positive, and carries the fade-in of 0.1 seconds as its only effect (no
    fade-out); it shows the text of the word, in upper case for an ASCII
    text. *)
Theorem C2_one_clip_per_word :
  forall (R : Rasterizer) (ws : list WordTiming) (video_size : Z * Z)
         (hl : option (list string)) (clips : list ImageClip),
    Forall (fun wd => PyFloat.ltb (start wd) (end_ wd) = true) ws ->
    create_word_caption_clips ws video_size hl = Ok clips ->
    List.length clips = List.length ws
    /\ forall (i : nat) (wd : WordTiming),
         nth_error ws i = Some wd ->
         exists c : ImageClip,
           nth_error clips i = Some c
           /\ clip_start c = start wd
           /\ clip_duration c = Some (PyFloat.sub (end_ wd) (start wd))
           /\ clip_effects c = [CrossFadeIn (PyFloat.decimal 1 1)]
           /\ (valid_word wd = true ->
               PyFloat.ltb zero (PyFloat.sub (end_ wd) (start wd)) = true)
           /\ (PyStr.isascii (text wd) = true ->
               option_map draw_text (top_draw c)
               = Some (PyStr.upper (text wd))).
Proof.
intros R ws [width height] hl clips Hnd H.
destruct (layout_shape ws width height hl clips H)
  as (fs & cy & ih & _ & _ & _ & ->).
split; [apply length_map|].
intros i wd Hi. eexists. split.
- rewrite nth_error_map, Hi. reflexivity.
- rewrite top_draw_word_clip. repeat split.
  intros Hv. apply andb_true_iff in Hv. destruct Hv as [Hs He].
  apply sub_positive; [exact He|exact Hs|].
  rewrite Forall_forall in Hnd. apply Hnd. now apply nth_error_In with i.
Qed.

Lemma C2_hello_world :
  exists c1 c2 : @ImageClip plain_rasterizer,
    Forall (fun wd => PyFloat.ltb (start wd) (end_ wd) = true) hello_world
    /\ create_word_caption_clips hello_world (1080, 1920) (Some ["world"])
       = Ok [c1; c2]
    /\ clip_start c1 = PyFloat.decimal 0 0
    /\ clip_duration c1
       = Some (PyFloat.sub (PyFloat.decimal 5 1) (PyFloat.decimal 0 0))
    /\ clip_start c2 = PyFloat.decimal 5 1
    /\ clip_duration c2
       = Some (PyFloat.sub (PyFloat.decimal 12 1) (PyFloat.decimal 5 1))
    /\ List.length [c1; c2] = List.length hello_world
    /\ forall (i : nat) (wd : WordTiming),
         nth_error hello_world i = Some wd ->
         exists c : ImageClip,
           nth_error [c1; c2] i = Some c
           /\ clip_start c = start wd
           /\ clip_duration c = Some (PyFloat.sub (end_ wd) (start wd))
           /\ clip_effects c = [CrossFadeIn (PyFloat.decimal 1 1)]
           /\ (valid_word wd = true ->
               PyFloat.ltb zero (PyFloat.sub (end_ wd) (start wd)) = true)
           /\ (PyStr.isascii (text wd) = true ->
               option_map draw_text (top_draw c)
               = Some (PyStr.upper (text wd))).
Proof.
eexists _, _.
split; [repeat constructor|].
split; [vm_compute; reflexivity|].
split; [reflexivity|]. split; [reflexivity|].
split; [reflexivity|]. split; [reflexivity|].
apply (C2_one_clip_per_word plain_rasterizer hello_world (1080, 1920)
                            (Some ["world"])).
- repeat constructor.
- vm_compute. reflexivity.
Defined.

(** C1, as the code has it: the layout drops no word record.  When it
    returns, it has made one clip per record, in the order of the records
    and whatever their times; the clip of a record starts at its [start]
    and lasts [end - start], which for finite times with [end <= start] is
    zero or negative.  Whether the layout returns does not depend on the
    times: with the same texts and any other times it returns as well. *)
Theorem C1_degenerate_words_kept :
  forall (R : Rasterizer) (ws : list WordTiming) (video_size : Z * Z)
         (hl : option (list string)) (clips : list ImageClip),
    create_word_caption_clips ws video_size hl = Ok clips ->
    List.length clips = List.length ws
    /\ (forall (i : nat) (wd : WordTiming),
           nth_error ws i = Some wd ->
           exists c : ImageClip,
             nth_error clips i = Some c
             /\ clip_start c = start wd
             /\ clip_duration c = Some (PyFloat.sub (end_ wd) (start wd))
             /\ (finite_word wd = true ->
                 PyFloat.leb (end_ wd) (start wd) = true ->
                 PyFloat.is_zero (PyFloat.sub (end_ wd) (start wd)) = true
                 \/ PyFloat.ltb (PyFloat.sub (end_ wd) (start wd)) zero
                    = true))
    /\ (forall ws' : list WordTiming,
           map text ws' = map text ws ->
           exists clips' : list ImageClip,
             create_word_caption_clips ws' video_size hl = Ok clips'
             /\ List.length clips' = List.length ws').
Proof.
intros R ws [width height] hl clips H.
split; [|split].
- destruct (layout_shape ws width height hl clips H)
    as (fs & cy & ih & _ & _ & _ & ->).
  apply length_map.
- destruct (layout_shape ws width height hl clips H)
    as (fs & cy & ih & _ & _ & _ & ->).
  intros i wd Hi. eexists. split; [|split; [|split]].
  + rewrite nth_error_map, Hi. reflexivity.
  + reflexivity.
  + reflexivity.
  + unfold finite_word, valid_word. intros Hv Hle.
    apply andb_true_iff in Hv. destruct Hv as [Hv Fe].
    apply andb_true_iff in Hv. destruct Hv as [Hv Fs].
    apply andb_true_iff in Hv. destruct Hv as [Vs Ve].
    now apply sub_zero_or_negative.
- intros ws' E. now apply (layout_retimed ws ws' (width, height) hl clips).
Qed.

Lemma C1_kept_at_1080 :
  exists c : @ImageClip plain_rasterizer,
    create_word_caption_clips
      [mkWord "now" (PyFloat.decimal 2 0) (PyFloat.decimal 2 0)]
      (1080, 1920) None
    = Ok [c]
    /\ List.length [c] = 1%nat
    /\ (forall (i : nat) (wd : WordTiming),
           nth_error [mkWord "now" (PyFloat.decimal 2 0) (PyFloat.decimal 2 0)] i
           = Some wd ->
           exists c' : ImageClip,
             nth_error [c] i = Some c'
             /\ clip_start c' = start wd
             /\ clip_duration c' = Some (PyFloat.sub (end_ wd) (start wd))
             /\ (finite_word wd = true ->
                 PyFloat.leb (end_ wd) (start wd) = true ->
                 PyFloat.is_zero (PyFloat.sub (end_ wd) (start wd)) = true
                 \/ PyFloat.ltb (PyFloat.sub (end_ wd) (start wd)) zero
                    = true))
    /\ (forall ws' : list WordTiming,
           map text ws'
           = map text [mkWord "now" (PyFloat.decimal 2 0) (PyFloat.decimal 2 0)] ->
           exists clips' : list (@ImageClip plain_rasterizer),
             create_word_caption_clips ws' (1080, 1920) None = Ok clips'
             /\ List.length clips' = List.length ws').
Proof.
eexists. split; [vm_compute; reflexivity|].
apply (C1_degenerate_words_kept plain_rasterizer
         [mkWord "now" (PyFloat.decimal 2 0) (PyFloat.decimal 2 0)]
         (1080, 1920) None).
vm_compute. reflexivity.
Defined.

(** C1 as stated fails: the record "now" with [start = end = 2.0] is not
    dropped; the layout returns a clip for it, and the clip lasts 0.0
    seconds. *)
Lemma C1_zero_duration_clip_emitted :
  PyFloat.leb (PyFloat.decimal 2 0) (PyFloat.decimal 2 0) = true
  /\ exists c : @ImageClip plain_rasterizer,
       create_word_caption_clips
         [mkWord "now" (PyFloat.decimal 2 0) (PyFloat.decimal 2 0)]
         (1080, 1920) None
       = Ok [c]
       /\ clip_start c = PyFloat.decimal 2 0
       /\ clip_duration c = Some (S754_zero false).
Proof.
split; [reflexivity|].
eexists. split; [vm_compute; reflexivity|]. split; reflexivity.
Qed.

(** C5: for a video width below [2 ^ 51] the font size is
    [min(floor(width / 9.6), 125)], 112 for a width of 1080; it depends on
    the width alone.  When the layout returns, it has made one clip per
    word, and the image of every clip is as wide as the video and
    [floor(font_size * 1.5)] high: for a width of 1080 the two words
    "hello" and "world" get two images of 1080 by 168. *)
Theorem C5_font_size_and_canvas :
  forall (R : Rasterizer) (width : Z),
    0 <= width < 2 ^ 51 ->
    let font_size := Z.min (Qfloor (inject_Z width / (96 # 10))) 125 in
    let canvas_height := Qfloor (inject_Z font_size * (15 # 10)) in
    font_size_of width = Ok font_size
    /\ image_height_of font_size = Ok canvas_height
    /\ font_size_of 1080 = Ok 112
    /\ forall (ws : list WordTiming) (height : Z) (hl : option (list string))
              (clips : list ImageClip),
         create_word_caption_clips ws (width, height) hl = Ok clips ->
         List.length clips = List.length ws
         /\ Forall (fun c => im_size (clip_img c) = (width, canvas_height))
                   clips.
Proof.
intros R width Hw. cbv zeta. rewrite Qfloor_div_96, Qfloor_mul_15.
pose proof (font_size_of_exact width Hw) as Hf.
pose proof (image_height_of_range _ (font_size_bounds width (proj1 Hw))) as Hi.
split; [exact Hf|]. split; [exact Hi|]. split; [now vm_compute|].
intros ws height hl clips H.
destruct (layout_shape ws width height hl clips H)
  as (fs & cy & ih & Hf' & _ & Hc & ->).
rewrite Hf in Hf'. injection Hf' as <-.
split; [apply length_map|].
apply Forall_map. apply Forall_forall. intros wd Hin.
rewrite size_word_clip. f_equal.
assert (Hn : ws <> []) by (intros ->; contradiction).
destruct (canvas_of_inversion _ _ _ (Hc Hn)) as [Hi' _].
rewrite Hi in Hi'. now injection Hi'.
Qed.

Lemma C5_width_1080 :
  exists c1 c2 : @ImageClip plain_rasterizer,
    0 <= 1080 < 2 ^ 51
    /\ create_word_caption_clips hello_world (1080, 1920) (Some ["world"])
       = Ok [c1; c2]
    /\ im_size (clip_img c1) = (1080, 168)
    /\ im_size (clip_img c2) = (1080, 168)
    /\ font_size_of 1080 = Ok 112
    /\ image_height_of 112 = Ok 168
    /\ font_size_of 1080 = Ok 112
    /\ forall (ws : list WordTiming) (height : Z) (hl : option (list string))
              (clips : list (@ImageClip plain_rasterizer)),
         create_word_caption_clips ws (1080, height) hl = Ok clips ->
         List.length clips = List.length ws
         /\ Forall (fun c => im_size (clip_img c) = (1080, 168)) clips.
Proof.
assert (H : 0 <= 1080 < 2 ^ 51) by lia.
eexists _, _. split; [exact H|].
split; [vm_compute; reflexivity|].
split; [reflexivity|]. split; [reflexivity|].
exact (C5_font_size_and_canvas plain_rasterizer 1080 H).
Defined.

(** C7: every clip the layout returns is placed at [x = 0] and
    [y = floor(height * 0.5)], whatever the words, their grouping and the
    highlight list; for a height of 1920 that is [y = 960]. *)
Theorem C7_fixed_position :
  forall (R : Rasterizer) (ws : list WordTiming) (width height : Z)
         (hl : option (list string)) (clips : list ImageClip),
    0 <= height < 2 ^ 53 ->
    create_word_caption_clips ws (width, height) hl = Ok clips ->
    caption_y_of height = Ok (Qfloor (inject_Z height * (5 # 10)))
    /\ caption_y_of 1920 = Ok 960
    /\ forall c : ImageClip,
         In c clips -> clip_pos c = (0, Qfloor (inject_Z height * (5 # 10))).
Proof.
intros R ws width height hl clips Hh H. rewrite Qfloor_mul_5.
pose proof (caption_y_of_exact height Hh) as Hy.
split; [exact Hy|]. split; [now vm_compute|].
intros c Hc.
destruct (layout_inversion ws width height hl clips H)
  as (fs & cy & _ & Hy' & _ & Hn).
apply In_nth_error in Hc. destruct Hc as [i Hc].
destruct (Hn i c Hc) as (ih & wd & _ & _ & ->).
rewrite Hy in Hy'. injection Hy' as <-. reflexivity.
Qed.

Lemma C7_height_1920 :
  exists clips : list (@ImageClip plain_rasterizer),
    0 <= 1920 < 2 ^ 53
    /\ create_word_caption_clips hello_world (1080, 1920) (Some ["world"])
       = Ok clips
    /\ List.length clips = 2%nat
    /\ caption_y_of 1920 = Ok 960
    /\ caption_y_of 1920 = Ok 960
    /\ forall c : ImageClip, In c clips -> clip_pos c = (0, 960).
Proof.
eexists. split; [lia|].
split; [vm_compute; reflexivity|].
split; [reflexivity|].
apply (C7_fixed_position plain_rasterizer hello_world 1080 1920
                         (Some ["world"])).
- lia.
- vm_compute. reflexivity.
Defined.

(** C4, as the code has it: when transcription, layout or compositing
    raises an exception of class [Exception], [main] catches it, prints one
    line for it after what was printed so far, and returns; the process
    then exits with status 0.  The line is the fixed not-found message for
    a [FileNotFoundError] and ["Error: "] followed by the exception's
    message for any other exception. *)
Theorem C4_caught_failure_exits_zero :
  forall (R : Rasterizer) (C : Collaborators) (e : exn) (out : list string),
    main_body [] = (out, Raise e) ->
    is_Exception e = true ->
    run_script = (out ++ [caught_message e], 0)
    /\ (forall msg : string,
           caught_message (FileNotFoundError msg)
           = "Error: Input video 'stitched_output.mp4' not found!")
    /\ (forall msg : string,
           caught_message (RuntimeError msg) = ("Error: " ++ msg)%string
           /\ caught_message (OverflowError msg) = ("Error: " ++ msg)%string
           /\ caught_message (ValueError msg) = ("Error: " ++ msg)%string
           /\ caught_message (ZeroDivisionError msg)
              = ("Error: " ++ msg)%string).
Proof.
intros R C e out Hb He. split; [|split; [reflexivity|now intros msg]].
unfold run_script. now rewrite (main_catches e [] out Hb He).
Qed.

Lemma C4_failing_transcription :
  @main_body plain_rasterizer (failing_recognizer (RuntimeError "boom")) []
  = (["Loading Whisper model..."; "Transcribing audio..."],
     Raise (RuntimeError "boom"))
  /\ is_Exception (RuntimeError "boom") = true
  /\ @run_script plain_rasterizer (failing_recognizer (RuntimeError "boom"))
     = (["Loading Whisper model..."; "Transcribing audio..."]
          ++ [caught_message (RuntimeError "boom")], 0)
  /\ (forall msg : string,
         caught_message (FileNotFoundError msg)
         = "Error: Input video 'stitched_output.mp4' not found!")
  /\ (forall msg : string,
         caught_message (RuntimeError msg) = ("Error: " ++ msg)%string
         /\ caught_message (OverflowError msg) = ("Error: " ++ msg)%string
         /\ caught_message (ValueError msg) = ("Error: " ++ msg)%string
         /\ caught_message (ZeroDivisionError msg)
            = ("Error: " ++ msg)%string).
Proof.
split; [reflexivity|]. split; [reflexivity|].
apply (C4_caught_failure_exits_zero plain_rasterizer
         (failing_recognizer (RuntimeError "boom")) (RuntimeError "boom")
         ["Loading Whisper model..."; "Transcribing audio..."]);
  reflexivity.
Defined.

(** C4 as stated fails: when the recognizer fails, the script prints the
    error line and exits with status 0, not with a non-zero status. *)
Lemma C4_failed_run_exits_zero :
  snd (@main_body plain_rasterizer
         (failing_recognizer (RuntimeError "boom")) [])
  = Raise (RuntimeError "boom")
  /\ @run_script plain_rasterizer (failing_recognizer (RuntimeError "boom"))
     = (["Loading Whisper model..."; "Transcribing audio..."; "Error: boom"],
        0).
Proof. split; reflexivity. Qed.

(** * Further properties of the code *)

(** X1: the font of a text image is the first of ["impact.ttf"],
    ["arial-bold.ttf"], ["arialbd.ttf"], ["calibrib.ttf"] and ["arial.ttf"],
    in this order, that loads at the requested size; when none of the five
    loads it is the default font.  Loading a font never makes
    [create_text_image] fail. *)
Theorem X1_font_fallback_order :
  forall (R : Rasterizer) (font_size : Z),
    exists k : nat,
      Forall (fun name => truetype name font_size = None)
             (firstn k font_candidates)
      /\ match nth_error font_candidates k with
         | Some name => truetype name font_size = Some (load_font font_size)
         | None => load_font font_size = load_default
         end.
Proof.
intros R font_size. unfold load_font, font_candidates, bold_fonts.
cbn [first_font app].
destruct (truetype "impact.ttf" font_size) eqn:E0;
  [exists 0%nat; split; [constructor|exact E0]|].
destruct (truetype "arial-bold.ttf" font_size) eqn:E1;
  [exists 1%nat; split; [repeat constructor; assumption|exact E1]|].
destruct (truetype "arialbd.ttf" font_size) eqn:E2;
  [exists 2%nat; split; [repeat constructor; assumption|exact E2]|].
destruct (truetype "calibrib.ttf" font_size) eqn:E3;
  [exists 3%nat; split; [repeat constructor; assumption|exact E3]|].
destruct (truetype "arial.ttf" font_size) eqn:E4;
  [exists 4%nat; split; [repeat constructor; assumption|exact E4]|].
exists 5%nat. split; [repeat constructor; assumption|reflexivity].
Qed.

(** X2: where the fill text lies on the canvas.  [create_text_image]
    places the text by the size of the bounding box it measures for the
    uppercased text at [(0, 0)], and does not look at where that box
    starts.  For a rasterizer that measures a text where it is drawn (the
    box at a position is the box at [(0, 0)] moved by the position), the
    ink of the fill text has the measured size, and it is off centre by
    the origin [(b0, b1)] of the measured box: its right margin minus its
    left margin is [- 2 * b0] or [1 - 2 * b0], and its bottom margin minus
    its top margin is [- 2 * b1] or [1 - 2 * b1].  A text measured as
    [(0, 10, 106, 40)] on a canvas of 200 by 60 has its ink 47 from the
    left, 47 from the right, 25 from the top and 5 from the bottom. *)
Theorem X2_ink_off_centre_by_box_origin :
  forall (R : Rasterizer) (text0 : string) (font_size width height : Z)
         (is_highlight : bool) (img : Image),
    (forall (xy : Z * Z) (t : string) (f : font),
        textbbox xy t f = shift xy (textbbox (0, 0) t f)) ->
    create_text_image text0 font_size width height is_highlight = Ok img ->
    let box0 := textbbox (0, 0) (PyStr.upper text0) (load_font font_size) in
    let b0 := fst (fst (fst box0)) in
    let b1 := snd (fst (fst box0)) in
    exists (d : TextDraw) (l t r b : Z),
      fill_draw img = Some d
      /\ ink_box d = (l, t, r, b)
      /\ r - l = snd (fst box0) - b0
      /\ b - t = snd box0 - b1
      /\ 0 <= (width - r) - l + 2 * b0 <= 1
      /\ 0 <= (height - b) - t + 2 * b1 <= 1.
Proof.
intros R text0 font_size width height is_highlight img Hshift H. cbv zeta.
apply create_text_image_inversion in H. destruct H as [_ ->].
unfold text_image, text_origin.
destruct (textbbox (0, 0) (PyStr.upper text0) (load_font font_size))
  as [[[b0 b1] b2] b3] eqn:Hb.
cbn [fst snd].
eexists _, _, _, _, _. split.
{ unfold fill_draw. cbn [im_draws]. rewrite map_app. cbn [map].
  rewrite last_last. reflexivity. }
split.
{ unfold ink_box. cbn [draw_xy draw_text draw_font].
  rewrite Hshift, Hb. cbn [shift fst snd]. reflexivity. }
pose proof (Z.div_mod (width - (b2 - b0)) 2 ltac:(discriminate)).
pose proof (Z.mod_pos_bound (width - (b2 - b0)) 2 ltac:(lia)).
pose proof (Z.div_mod (height - (b3 - b1)) 2 ltac:(discriminate)).
pose proof (Z.mod_pos_bound (height - (b3 - b1)) 2 ltac:(lia)).
lia.
Qed.

Lemma X2_ink_of_hi_on_200_60 :
  (forall (xy : Z * Z) (t : string) (f : @font inked_rasterizer),
      @textbbox inked_rasterizer xy t f
      = shift xy (@textbbox inked_rasterizer (0, 0) t f))
  /\ exists img : @Image inked_rasterizer,
       create_text_image "hi" 40 200 60 false = Ok img
       /\ option_map ink_box (fill_draw img) = Some (47, 25, 153, 55)
       /\ exists (d : @TextDraw inked_rasterizer) (l t r b : Z),
            fill_draw img = Some d
            /\ ink_box d = (l, t, r, b)
            /\ r - l = 106 - 0
            /\ b - t = 40 - 10
            /\ 0 <= (200 - r) - l + 2 * 0 <= 1
            /\ 0 <= (60 - b) - t + 2 * 10 <= 1.
Proof.
assert (Hs : forall (xy : Z * Z) (t : string) (f : @font inked_rasterizer),
           @textbbox inked_rasterizer xy t f
           = shift xy (@textbbox inked_rasterizer (0, 0) t f)).
{ intros [x y] t f. unfold textbbox, inked_rasterizer, shift.
  cbn [fst snd]. rewrite !Z.add_0_r. reflexivity. }
split; [exact Hs|].
eexists. split; [vm_compute; reflexivity|]. split; [reflexivity|].
exact (X2_ink_off_centre_by_box_origin inked_rasterizer "hi" 40 200 60 false
         _ Hs eq_refl).
Defined.

(** X3: [create_text_image] fails exactly as [Image.new] fails on the
    requested size, before any text is measured or drawn; when it returns,
    the image has the requested size and exactly 81 texts are drawn on it,
    at 81 different positions, all with the same font; all but the last
    are black.  With a canvas maker that refuses what PIL refuses, a width
    of [-100] gives a [ValueError], a width of [2 ^ 31] an
    [OverflowError], and 1080 by 168 an image. *)
Theorem X3_canvas_and_draws :
  forall (R : Rasterizer) (text0 : string) (font_size width height : Z)
         (is_highlight : bool),
    (forall e : exn,
        new_image "RGBA" (width, height) = Raise e ->
        create_text_image text0 font_size width height is_highlight = Raise e)
    /\ (forall img : Image,
           create_text_image text0 font_size width height is_highlight
           = Ok img ->
           new_image "RGBA" (width, height) = Ok tt
           /\ im_size img = (width, height)
           /\ List.length (im_draws img) = 81%nat
           /\ NoDup (map draw_xy (im_draws img))
           /\ Forall (fun d => draw_fill d = (0, 0, 0, 255))
                     (removelast (im_draws img))
           /\ Forall (fun d => draw_font d = load_font font_size)
                     (im_draws img))
    /\ @create_text_image plain_rasterizer text0 font_size (-100) 168
                          is_highlight
       = Raise (ValueError "Width and height must be >= 0")
    /\ @create_text_image plain_rasterizer text0 font_size (2 ^ 31) 168
                          is_highlight
       = Raise (OverflowError "signed integer is greater than maximum")
    /\ exists img : @Image plain_rasterizer,
         create_text_image text0 font_size 1080 168 is_highlight = Ok img
         /\ List.length (im_draws img) = 81%nat.
Proof.
intros R text0 font_size width height is_highlight.
split; [|split; [|split; [|split]]].
- intros e He. rewrite create_text_image_draws, He. reflexivity.
- intros img H. apply create_text_image_inversion in H.
  destruct H as [Hn ->]. split; [exact Hn|].
  unfold text_image.
  destruct (text_origin text0 font_size width height) as [x y].
  cbn [im_size im_draws].
  split; [reflexivity|].
  split; [now rewrite length_app, length_map|].
  split; [|split].
  + rewrite map_app, map_map. cbn [map outline draw_xy].
    apply NoDup_app.
    * apply NoDup_map_inj; [|exact NoDup_stroke_offsets].
      intros [a b] [c d] E. cbn [fst snd] in E. injection E as E1 E2.
      f_equal; lia.
    * repeat constructor. intros [].
    * intros p Hp [Hq|[]]. subst p. apply in_map_iff in Hp.
      destruct Hp as ([dx dy] & E & Hin). cbn [fst snd] in E.
      apply In_stroke_offsets in Hin. injection E as E1 E2. lia.
  + rewrite removelast_last. apply Forall_map. now apply Forall_forall.
  + apply Forall_app. split; [apply Forall_map; now apply Forall_forall|].
    now constructor.
- rewrite create_text_image_draws. reflexivity.
- rewrite create_text_image_draws. reflexivity.
- eexists. split; [rewrite create_text_image_draws; reflexivity|].
  unfold text_image.
  destruct (text_origin text0 font_size 1080 168) as [x y].
  cbn [im_draws]. now rewrite length_app, length_map.
Qed.

(** X4: the normalizer handles the segments one by one and keeps every
    word: the records of two segment lists put together are the records of
    the first followed by those of the second, the number of records is the
    total number of words of the segments that have the key ["words"], and
    a segment of one word adds exactly one record, whatever the word's text
    (blank or not) and times. *)
Theorem X4_normalizer_keeps_every_word :
  (forall a b : list Segment,
      word_segments_of (a ++ b) = word_segments_of a ++ word_segments_of b)
  /\ (forall segments : list Segment,
         List.length (word_segments_of segments)
         = list_sum (map word_count segments))
  /\ (forall (w : RawWord) (pre post : list Segment),
         List.length (word_segments_of (pre ++ mkSegment (Some [w]) :: post))
         = S (List.length (word_segments_of (pre ++ post)))).
Proof.
split; [exact word_segments_of_app|]. split; [exact word_segments_of_length|].
intros w pre post. rewrite !word_segments_of_length, !map_app.
cbn [map]. rewrite !list_sum_app. unfold list_sum at 2 4.
cbn [fold_right word_count seg_words List.length]. lia.
Qed.

(** X5: for segments whose words are ASCII texts, the text of every record
    the normalizer returns neither starts nor ends with white space, and
    neither does its upper case, which is the text drawn; trimming it
    again changes nothing, so on these records the trim of the highlight
    test is the identity: a record is highlighted exactly when its
    uppercased text is in the list compared against.  The words
    [" Hello"] and [" world"] become ["Hello"] and ["world"]. *)
Theorem X5_normalized_text_is_trimmed :
  forall (segments : list Segment) (highlight_words : list string),
    ascii_segments segments = true ->
    Forall (fun wd =>
              padded (text wd) = false
              /\ padded (PyStr.upper (text wd)) = false
              /\ PyStr.strip (text wd) = text wd
              /\ is_highlight_of highlight_words wd
                 = PyStr.contains highlight_words (PyStr.upper (text wd)))
           (word_segments_of segments).
Proof.
intros segments hl _. apply Forall_word_segments_of. intros w.
split; [apply trimmed_bare|].
split; [rewrite padded_upper; apply trimmed_bare|]. split.
- apply strip_idem.
- unfold is_highlight_of, trimmed. cbn [text].
  now rewrite <- upper_strip, strip_idem.
Qed.

Lemma X5_hello_world_trimmed :
  ascii_segments
    [mkSegment
       (Some [mkRawWord " Hello" (PyFloat.decimal 0 0) (PyFloat.decimal 5 1);
              mkRawWord " world" (PyFloat.decimal 5 1) (PyFloat.decimal 12 1)]);
     mkSegment None]
  = true
  /\ map text
       (word_segments_of
          [mkSegment
             (Some [mkRawWord " Hello" (PyFloat.decimal 0 0)
                              (PyFloat.decimal 5 1);
                    mkRawWord " world" (PyFloat.decimal 5 1)
                              (PyFloat.decimal 12 1)]);
           mkSegment None])
     = ["Hello"; "world"]
  /\ Forall (fun wd =>
               padded (text wd) = false
               /\ padded (PyStr.upper (text wd)) = false
               /\ PyStr.strip (text wd) = text wd
               /\ is_highlight_of ["WORLD"] wd
                  = PyStr.contains ["WORLD"] (PyStr.upper (text wd)))
            (word_segments_of
               [mkSegment
                  (Some [mkRawWord " Hello" (PyFloat.decimal 0 0)
                                   (PyFloat.decimal 5 1);
                         mkRawWord " world" (PyFloat.decimal 5 1)
                                   (PyFloat.decimal 12 1)]);
                mkSegment None]).
Proof.
split; [reflexivity|]. split; [reflexivity|].
exact (X5_normalized_text_is_trimmed
         [mkSegment
            (Some [mkRawWord " Hello" (PyFloat.decimal 0 0)
                             (PyFloat.decimal 5 1);
                   mkRawWord " world" (PyFloat.decimal 5 1)
                             (PyFloat.decimal 12 1)]);
          mkSegment None]
         ["WORLD"] eq_refl).
Defined.

(** X6: the layout works word by word: the result for a transcript made of
    two parts is the result for the first part followed by the result for
    the second (and an exception when one of them raises), for every video
    size and highlight list.  The clip of a word depends on no other
    word. *)
Theorem X6_layout_word_by_word :
  forall (R : Rasterizer) (ws1 ws2 : list WordTiming) (video_size : Z * Z)
         (hl : option (list string)),
    create_word_caption_clips (ws1 ++ ws2) video_size hl
    = layout_both ws1 ws2 video_size hl.
Proof.
intros R ws1 ws2 [width height] hl. unfold layout_both.
destruct (font_size_of width) as [fs|e] eqn:Hf.
2:{ unfold create_word_caption_clips. rewrite Hf. reflexivity. }
destruct (caption_y_of height) as [cy|e] eqn:Hy.
2:{ unfold create_word_caption_clips. rewrite Hf, Hy. reflexivity. }
destruct (canvas_of width fs) as [ih|e] eqn:Hh.
- rewrite !(layout_as_map _ width height hl fs cy ih Hf Hy Hh).
  cbn [bind]. now rewrite map_app.
- rewrite !(layout_no_height _ width height hl fs cy e Hf Hy Hh).
  destruct ws1 as [|w1 ws1]; [|reflexivity].
  destruct ws2 as [|w2 ws2]; reflexivity.
Qed.

(** X7: the letter case of the transcript does not matter: writing the
    text of every word in upper case before the layout changes no clip
    (neither the text drawn nor the highlighting). *)
Theorem X7_layout_ignores_letter_case :
  forall (R : Rasterizer) (ws : list WordTiming) (video_size : Z * Z)
         (hl : option (list string)),
    create_word_caption_clips (map upper_word ws) video_size hl
    = create_word_caption_clips ws video_size hl.
Proof.
intros R ws [width height] hl. unfold create_word_caption_clips.
destruct (font_size_of width) as [fs|e]; cbn [bind]; [|reflexivity].
destruct (caption_y_of height) as [cy|e]; cbn [bind]; [|reflexivity].
rewrite clip_loop_upper_word.
pose proof (clip_loop_frame width fs cy
              (map PyStr.upper match hl with Some l => l | None => [] end)
              ws (group_loop (map upper_word ws) (mkLocals [] [] []))
              (group_loop ws (mkLocals [] [] []))) as H.
rewrite !group_loop_clips in H. specialize (H eq_refl).
destruct (for_each _ ws (group_loop (map upper_word ws) _)),
         (for_each _ ws (group_loop ws _)); cbn in *; congruence.
Qed.

(** X8: the highlight list acts as a set of words compared without regard
    to letter case: two lists whose uppercased entries are the same, in
    whatever order and however often repeated, give the same clips. *)
Theorem X8_highlight_list_is_a_set :
  forall (R : Rasterizer) (ws : list WordTiming) (video_size : Z * Z)
         (hl hl' : list string),
    (forall s : string,
        In s (map PyStr.upper hl) <-> In s (map PyStr.upper hl')) ->
    create_word_caption_clips ws video_size (Some hl)
    = create_word_caption_clips ws video_size (Some hl').
Proof.
intros R ws video_size hl hl' H. apply layout_ext. intros wd.
unfold is_highlight_of, upper_entries.
destruct (PyStr.contains (map PyStr.upper hl) _) eqn:E1,
         (PyStr.contains (map PyStr.upper hl') _) eqn:E2; try reflexivity.
- apply contains_In, H, contains_In in E1. congruence.
- apply contains_In, H, contains_In in E2. congruence.
Qed.

Lemma X8_reordered_list :
  (forall s : string,
      In s (map PyStr.upper ["wow"; "Amazing"])
      <-> In s (map PyStr.upper ["AMAZING"; "WOW"; "wow"]))
  /\ forall (ws : list WordTiming) (video_size : Z * Z),
       @create_word_caption_clips plain_rasterizer ws video_size
         (Some ["wow"; "Amazing"])
       = create_word_caption_clips ws video_size
           (Some ["AMAZING"; "WOW"; "wow"]).
Proof.
assert (H : forall s : string,
          In s (map PyStr.upper ["wow"; "Amazing"])
          <-> In s (map PyStr.upper ["AMAZING"; "WOW"; "wow"]))
  by (intros s; cbn; tauto).
split; [exact H|].
intros ws video_size.
exact (X8_highlight_list_is_a_set plain_rasterizer ws video_size
         ["wow"; "Amazing"] ["AMAZING"; "WOW"; "wow"] H).
Defined.

(** X9: for widths below [2 ^ 51] the font size never decreases when the
    width grows; it lies between 0 and 125, is 0 exactly for the widths
    below 10 and reaches the cap of 125 exactly from the width 1200 on.
    The canvas height computed from it is at least the font size and at
    most 187. *)
Theorem X9_font_size_grows_to_cap :
  forall w1 w2 : Z,
    0 <= w1 -> w1 <= w2 -> w2 < 2 ^ 51 ->
    exists f1 f2 h1 : Z,
      font_size_of w1 = Ok f1
      /\ font_size_of w2 = Ok f2
      /\ image_height_of f1 = Ok h1
      /\ 0 <= f1 <= f2 /\ f2 <= 125
      /\ (f1 = 125 <-> 1200 <= w1)
      /\ (f1 = 0 <-> w1 < 10)
      /\ f1 <= h1 <= 187.
Proof.
intros w1 w2 H0 H12 H2.
exists (Z.min (w1 * 10 / 96) 125), (Z.min (w2 * 10 / 96) 125),
       (Z.min (w1 * 10 / 96) 125 * 15 / 10).
split; [apply font_size_of_exact; lia|].
split; [apply font_size_of_exact; lia|].
split; [apply image_height_of_range, font_size_bounds; lia|].
assert (M : w1 * 10 / 96 <= w2 * 10 / 96) by (apply Z.div_le_mono; lia).
pose proof (Z.div_mod (w1 * 10) 96 ltac:(discriminate)) as D1.
pose proof (Z.mod_pos_bound (w1 * 10) 96 ltac:(lia)) as B1.
set (q1 := w1 * 10 / 96) in *. set (q2 := w2 * 10 / 96) in *.
set (f1 := Z.min q1 125).
assert (F : 0 <= f1 <= 125) by (unfold f1; lia).
pose proof (Z.div_mod (f1 * 15) 10 ltac:(discriminate)) as D3.
pose proof (Z.mod_pos_bound (f1 * 15) 10 ltac:(lia)) as B3.
unfold f1 in *. lia.
Qed.

Lemma X9_widths_1080_1920 :
  0 <= 1080 /\ 1080 <= 1920 /\ 1920 < 2 ^ 51
  /\ exists f1 f2 h1 : Z,
       font_size_of 1080 = Ok f1
       /\ font_size_of 1920 = Ok f2
       /\ image_height_of f1 = Ok h1
       /\ 0 <= f1 <= f2 /\ f2 <= 125
       /\ (f1 = 125 <-> 1200 <= 1080)
       /\ (f1 = 0 <-> 1080 < 10)
       /\ f1 <= h1 <= 187.
Proof.
split; [lia|]. split; [lia|]. split; [lia|].
apply (X9_font_size_grows_to_cap 1080 1920); lia.
Defined.

(** X10: a video width of [2 ^ 1024] or more cannot be converted to a
    float, and the layout then raises [OverflowError] with the message
    "int too large to convert to float", whatever the words (even for an
    empty transcript), the height and the highlight list; so does a height
    of [2 ^ 1024] or more with a width below [2 ^ 51]. *)
Theorem X10_layout_overflow :
  forall (R : Rasterizer) (ws : list WordTiming) (width height : Z)
         (hl : option (list string)),
    2 ^ 1024 <= width \/ (0 <= width < 2 ^ 51 /\ 2 ^ 1024 <= height) ->
    create_word_caption_clips ws (width, height) hl
    = Raise (OverflowError "int too large to convert to float").
Proof.
intros R ws width height hl [H|[H1 H2]].
- now apply layout_width_overflow.
- now apply layout_height_overflow.
Qed.

Lemma X10_width_2_1024 :
  (2 ^ 1024 <= 2 ^ 1024 \/ (0 <= 2 ^ 1024 < 2 ^ 51 /\ 2 ^ 1024 <= 1920))
  /\ @create_word_caption_clips plain_rasterizer [] (2 ^ 1024, 1920) None
     = Raise (OverflowError "int too large to convert to float").
Proof.
assert (H : 2 ^ 1024 <= 2 ^ 1024 \/ (0 <= 2 ^ 1024 < 2 ^ 51 /\ 2 ^ 1024 <= 1920))
  by (left; apply Z.le_refl).
split; [exact H|].
exact (X10_layout_overflow plain_rasterizer [] (2 ^ 1024) 1920 None H).
Defined.

(** X11: a run in which the recognizer returns, the input video opens and
    the layout returns.  The layout has made one clip per word of the
    segments, and the script writes the video with these clips to
    "captioned_output.mp4" with the codecs "libx264" and "aac" at the frame
    rate of the input.  Of the lines the script prints itself (what the
    libraries write on the same stream is not part of them): if the
    writing succeeds the script has printed its eight progress lines, the
    last one reporting success, and exits with status 0; if the writing
    raises an exception of class [Exception], the script has printed its
    first six progress lines and the error line, and exits with status 0
    as well; if the writing is interrupted from the keyboard, the script
    has printed its first six progress lines and no error line, and the
    status is 130. *)
Theorem X11_run_renders_one_clip_per_word :
  forall (R : Rasterizer) (C : Collaborators) (m : model)
         (segments : list Segment) (v : video) (clips : list ImageClip),
    load_model "base" = Ok m ->
    transcribe_segments m "stitched_output.mp4" = Ok segments ->
    VideoFileClip "stitched_output.mp4" = Ok v ->
    create_word_caption_clips (word_segments_of segments)
      (video_w v, video_h v) (Some main_highlight_words)
    = Ok clips ->
    List.length clips = list_sum (map word_count segments)
    /\ match write_videofile (v, clips) "captioned_output.mp4" "libx264"
               "aac" "temp-audio.m4a" true (video_fps v) with
       | Ok _ => run_script = (progress_lines (List.length clips), 0)
       | Raise e =>
           (is_Exception e = true ->
            run_script
            = (firstn 6 (progress_lines (List.length clips))
                 ++ [caught_message e], 0))
           /\ (e = KeyboardInterrupt ->
               run_script
               = (firstn 6 (progress_lines (List.length clips)), 130))
       end.
Proof.
intros R C m segments v clips Hm Ht Hv Hl.
pose proof (main_body_after_open m segments v Hm Ht Hv) as Hb.
rewrite Hl in Hb.
assert (Hlen : List.length clips = List.length (word_segments_of segments)).
{ destruct (layout_shape _ _ _ _ _ Hl) as (fs & cy & ih & _ & _ & _ & ->).
  apply length_map. }
rewrite Hlen.
split; [apply word_segments_of_length|].
fold output_video.
destruct (write_videofile _ _ _ _ _ _ _) as [[]|e].
- unfold run_script. now rewrite (main_returns [] _ Hb).
- split.
  + intros He. unfold run_script. now rewrite (main_catches e [] _ Hb He).
  + intros ->. unfold run_script.
    now rewrite (main_lets_through KeyboardInterrupt [] _ Hb eq_refl).
Qed.

Lemma X11_run_of_hello_world :
  exists c1 c2 : @ImageClip plain_rasterizer,
    @load_model plain_rasterizer hello_recognizer "base" = Ok tt
    /\ @create_word_caption_clips plain_rasterizer
         [mkWord "Hello" (PyFloat.decimal 0 0) (PyFloat.decimal 5 1);
          mkWord "world" (PyFloat.decimal 5 1) (PyFloat.decimal 12 1)]
         (1080, 1920) (Some main_highlight_words)
       = Ok [c1; c2]
    /\ List.length [c1; c2] = 2%nat
    /\ @run_script plain_rasterizer hello_recognizer = (progress_lines 2, 0).
Proof.
eexists _, _. split; [reflexivity|]. split; [vm_compute; reflexivity|].
exact (X11_run_renders_one_clip_per_word plain_rasterizer hello_recognizer tt
         [mkSegment
            (Some [mkRawWord " Hello" (PyFloat.decimal 0 0) (PyFloat.decimal 5 1);
                   mkRawWord " world" (PyFloat.decimal 5 1)
                             (PyFloat.decimal 12 1)]);
          mkSegment None]
         tt _ eq_refl eq_refl eq_refl eq_refl).
Defined.

(** X12: whatever the recognizer and the video library return or raise,
    the lines the script prints itself (what the libraries write on the
    same stream is not part of them) are its progress lines in their fixed
    order: all eight of them when every step succeeds; fewer than eight
    followed by exactly one error line when a step raises an exception of
    class [Exception], which [main] catches; fewer than eight and no error
    line when the exception is of another class, which leaves [main]. *)
Theorem X12_output_is_progress_then_error :
  forall (R : Rasterizer) (C : Collaborators),
    exists n : nat,
      main [] = (progress_lines n, Ok tt)
      \/ (exists (k : nat) (e : exn),
             (k < 8)%nat /\ is_Exception e = true
             /\ main []
                = (firstn k (progress_lines n) ++ [caught_message e], Ok tt))
      \/ (exists (k : nat) (e : exn),
             (k < 8)%nat /\ is_Exception e = false
             /\ main [] = (firstn k (progress_lines n), Raise e)).
Proof.
intros R C. destruct main_body_progress as (n & [H|(k & e & Hk & H)]).
- exists n. left. now apply main_returns.
- exists n. right. destruct (is_Exception e) eqn:He.
  + left. exists k, e. split; [exact Hk|]. split; [exact He|].
    now apply main_catches.
  + right. exists k, e. split; [exact Hk|]. split; [exact He|].
    now apply main_lets_through.
Qed.

(** X13: the script never reports success after a failure: the line
    "Successfully created captioned video: captioned_output.mp4" is among
    the lines printed if and only if transcription, layout and rendering
    all returned without an exception. *)
Theorem X13_success_reported_only_on_success :
  forall (R : Rasterizer) (C : Collaborators),
    In "Successfully created captioned video: captioned_output.mp4"
       (fst (main []))
    <-> snd (main_body []) = Ok tt.
Proof.
intros R C. change "Successfully created captioned video: captioned_output.mp4"
  with success_line.
destruct main_body_progress as (n & [H|(k & e & Hk & H)]).
- rewrite (main_returns [] _ H), H. cbn [fst snd]. split; [reflexivity|].
  intros _. cbn. tauto.
- rewrite H. cbn [snd]. split; [|discriminate].
  intros Hin. exfalso. destruct (is_Exception e) eqn:He.
  + rewrite (main_catches e [] _ H He) in Hin. cbn [fst] in Hin.
    apply in_app_or in Hin. destruct Hin as [Hin|[Hin|[]]].
    * now apply (success_line_not_before n k Hk).
    * now apply (success_line_not_caught e).
  + rewrite (main_lets_through e [] _ H He) in Hin. cbn [fst] in Hin.
    now apply (success_line_not_before n k Hk).
Qed.

(** X14: no exception of class [Exception] ever leaves [main]: an
    exception that leaves it is of another class (such as
    [KeyboardInterrupt]), was raised inside the [try] block and comes out
    unchanged, with no error line printed for it. *)
Theorem X14_only_non_exceptions_leave_main :
  forall (R : Rasterizer) (C : Collaborators) (out out' : list string)
         (e : exn),
    main out = (out', Raise e) ->
    is_Exception e = false /\ main_body out = (out', Raise e).
Proof.
intros R C out out' e. unfold main.
destruct (main_body out) as [o [[]|e']] eqn:Hb.
- discriminate.
- destruct e'; cbn; try discriminate.
  intros H. injection H as <- <-. now split.
Qed.

Lemma X14_interrupted_transcription :
  @main plain_rasterizer (failing_recognizer KeyboardInterrupt) []
  = (["Loading Whisper model..."; "Transcribing audio..."],
     Raise KeyboardInterrupt)
  /\ is_Exception KeyboardInterrupt = false
  /\ @main_body plain_rasterizer (failing_recognizer KeyboardInterrupt) []
     = (["Loading Whisper model..."; "Transcribing audio..."],
        Raise KeyboardInterrupt).
Proof.
split; [reflexivity|].
exact (X14_only_non_exceptions_leave_main plain_rasterizer
         (failing_recognizer KeyboardInterrupt) []
         ["Loading Whisper model..."; "Transcribing audio..."]
         KeyboardInterrupt eq_refl).
Defined.

(** X15: from the recognizer's segments to the clips: when the layout of
    the normalized transcript of segments with ASCII words returns, it has
    made one clip per word of the segments, in their order; the clip at
    index [i] shows the [i]-th word trimmed and in upper case, starts at
    the word's start and lasts its end minus its start.  The clip of the
    word [" Hello"] shows ["HELLO"]. *)
Theorem X15_segments_to_clips :
  forall (R : Rasterizer) (segments : list Segment) (width height : Z)
         (hl : option (list string)) (clips : list ImageClip),
    ascii_segments segments = true ->
    create_word_caption_clips (word_segments_of segments) (width, height) hl
    = Ok clips ->
    List.length clips = List.length (List.concat (map raw_words segments))
    /\ (forall (i : nat) (w : RawWord),
           nth_error (List.concat (map raw_words segments)) i = Some w ->
           exists c : ImageClip,
             nth_error clips i = Some c
             /\ option_map draw_text (top_draw c)
                = Some (PyStr.upper (PyStr.strip (word w)))
             /\ clip_start c = raw_start w
             /\ clip_duration c
                = Some (PyFloat.sub (raw_end w) (raw_start w)))
    /\ (forall (t0 t1 : float) (c : ImageClip),
           create_word_caption_clips
             (word_segments_of [mkSegment (Some [mkRawWord " Hello" t0 t1])])
             (width, height) hl
           = Ok [c] ->
           option_map draw_text (top_draw c) = Some "HELLO").
Proof.
intros R segments width height hl clips _ H.
split; [|split].
- destruct (layout_shape _ _ _ _ _ H) as (fs & cy & ih & _ & _ & _ & ->).
  rewrite word_segments_of_map. now rewrite !length_map.
- destruct (layout_shape _ _ _ _ _ H) as (fs & cy & ih & _ & _ & _ & ->).
  rewrite word_segments_of_map.
  intros i w Hi. eexists. split.
  + rewrite !nth_error_map, Hi. reflexivity.
  + rewrite top_draw_word_clip. repeat split.
- intros t0 t1 c Hc.
  destruct (layout_shape _ _ _ _ _ Hc) as (fs & cy & ih & _ & _ & _ & E).
  cbn in E. injection E as ->. now rewrite top_draw_word_clip.
Qed.

Lemma X15_hello_world_segments :
  exists c1 c2 : @ImageClip plain_rasterizer,
    ascii_segments
      [mkSegment
         (Some [mkRawWord " Hello" (PyFloat.decimal 0 0) (PyFloat.decimal 5 1);
                mkRawWord " world" (PyFloat.decimal 5 1)
                          (PyFloat.decimal 12 1)]);
       mkSegment None]
    = true
    /\ create_word_caption_clips
         (word_segments_of
            [mkSegment
               (Some [mkRawWord " Hello" (PyFloat.decimal 0 0)
                                (PyFloat.decimal 5 1);
                      mkRawWord " world" (PyFloat.decimal 5 1)
                                (PyFloat.decimal 12 1)]);
             mkSegment None])
         (1080, 1920) None
       = Ok [c1; c2]
    /\ option_map draw_text (top_draw c1) = Some "HELLO"
    /\ option_map draw_text (top_draw c2) = Some "WORLD"
    /\ forall (i : nat) (w : RawWord),
         nth_error
           [mkRawWord " Hello" (PyFloat.decimal 0 0) (PyFloat.decimal 5 1);
            mkRawWord " world" (PyFloat.decimal 5 1) (PyFloat.decimal 12 1)] i
         = Some w ->
         exists c : ImageClip,
           nth_error [c1; c2] i = Some c
           /\ option_map draw_text (top_draw c)
              = Some (PyStr.upper (PyStr.strip (word w)))
           /\ clip_start c = raw_start w
           /\ clip_duration c = Some (PyFloat.sub (raw_end w) (raw_start w)).
Proof.
eexists _, _. split; [reflexivity|]. split; [vm_compute; reflexivity|].
split; [reflexivity|]. split; [reflexivity|].
exact (proj1 (proj2 (X15_segments_to_clips plain_rasterizer
         [mkSegment
            (Some [mkRawWord " Hello" (PyFloat.decimal 0 0) (PyFloat.decimal 5 1);
                   mkRawWord " world" (PyFloat.decimal 5 1)
                             (PyFloat.decimal 12 1)]);
          mkSegment None]
         1080 1920 None _ eq_refl eq_refl))).
Defined.

